(** * Roam audio-tour generator: [tools/generate_audio.py]

    A shallow embedding of the two batch functions of the script,
    [process_tour] and [update_tour_durations], together with the parts of
    the Python runtime they rest on: JSON values and [dict] operations,
    [pathlib]'s pure POSIX paths, the [json] reader and writer, and a file
    system.  The text-to-speech service and the MP3 metadata reader are
    opaque collaborators and enter as section variables.

    Modelling conventions.
    - Text (file contents, JSON strings, audio bytes) is a [string] of bytes;
      the script reads and writes UTF-8 and never inspects a character above
      the ASCII range, so bytes >= 128 pass through unchanged.
    - JSON numbers are the integers.  A document with a floating-point
      literal lies outside the modelled fragment of the reader.
    - The duration reported by the metadata reader is a float; every finite
      float is a rational, so it is a [Q], and [int] truncates towards zero.
    - Paths are POSIX paths compared as [pathlib] normalises them.
    - An uncaught Python exception is the result [Raise]. *)

From stdpp Require Import gmap strings list pretty.
From Stdlib Require Import Ascii ZArith QArith_base.

Set Warnings "-register-all".

Open Scope Z_scope.

(** ** Python values and exceptions *)

Module Py.

(** What [json.load] can return (without floats). A Python [dict] keeps
    insertion order, so an object is an association list with distinct
    keys, in order. *)
Inductive json : Type :=
| JNull
| JBool (b : bool)
| JInt (z : Z)
| JStr (s : string)
| JArr (items : list json)
| JObj (fields : list (string * json)).

Inductive exn : Type :=
| KeyError (key : string)
| TypeError
| ValueError
| AttributeError
| FileNotFoundError
| FileExistsError
| IsADirectoryError
| JSONDecodeError
| Exception (msg : string).

Inductive result (A : Type) : Type :=
| Ok (a : A)
| Raise (e : exn).
Arguments Ok {A} a.
Arguments Raise {A} e.

#[export] Instance result_ret : MRet result := fun A a => Ok a.

#[export] Instance result_bind : MBind result :=
  fun A B k r =>
    match r with
    | Ok a => k a
    | Raise e => Raise e
    end.

(** [str(e)] for the message printed by the handlers. *)
Definition exn_message (e : exn) : string :=
  match e with
  | KeyError k => "'" +:+ k +:+ "'"
  | Exception msg => msg
  | TypeError => "TypeError"
  | ValueError => "ValueError"
  | AttributeError => "AttributeError"
  | FileNotFoundError => "FileNotFoundError"
  | FileExistsError => "FileExistsError"
  | IsADirectoryError => "IsADirectoryError"
  | JSONDecodeError => "JSONDecodeError"
  end.

(** *** dict operations on association lists *)

Fixpoint assoc (k : string) (kv : list (string * json)) : option json :=
  match kv with
  | [] => None
  | (k', v) :: rest => if String.eqb k k' then Some v else assoc k rest
  end.

(** [d[k] = v]: replace in place when the key is there, else append. *)
Fixpoint assoc_set (k : string) (v : json) (kv : list (string * json))
  : list (string * json) :=
  match kv with
  | [] => [(k, v)]
  | (k', v') :: rest =>
      if String.eqb k k' then (k', v) :: rest
      else (k', v') :: assoc_set k v rest
  end.

(** [obj[key]] with a string key. *)
Definition getitem (obj : json) (key : string) : result json :=
  match obj with
  | JObj kv =>
      match assoc key kv with
      | Some v => Ok v
      | None => Raise (KeyError key)
      end
  | _ => Raise TypeError
  end.

(** [obj.get(key)], [None] when the key is missing. Only a dict has the
    method. *)
Definition get (obj : json) (key : string) : result (option json) :=
  match obj with
  | JObj kv => Ok (assoc key kv)
  | _ => Raise AttributeError
  end.

(** [obj[key] = v] on a dict. *)
Definition setitem (obj : json) (key : string) (v : json) : json :=
  match obj with
  | JObj kv => JObj (assoc_set key v kv)
  | _ => obj
  end.

(** [iter(v)]: a list gives its items, a dict its keys, a string its
    characters; nothing else is iterable. *)
Definition chars (s : string) : list json :=
  (fun c => JStr (String c EmptyString)) <$> String.list_ascii_of_string s.

Definition iter (v : json) : result (list json) :=
  match v with
  | JArr items => Ok items
  | JObj kv => Ok ((fun p => JStr (fst p)) <$> kv)
  | JStr s => Ok (chars s)
  | _ => Raise TypeError
  end.

(** [len(v)] is defined when [iter(v)] is. *)
Definition len (v : json) : result nat :=
  match iter v with
  | Ok items => Ok (length items)
  | Raise e => Raise e
  end.

(** [format(z, "02d")] on an integer: at least two characters, padded with
    zeros after the sign. *)
Definition format_02d_int (z : Z) : string :=
  if (0 <=? z) && (z <? 10) then "0" +:+ pretty z else pretty z.

(** [f"{v:02d}"]: a bool formats as the integer it is, a string rejects the
    code [d], the other types reject any format string. *)
Definition format_02d (v : json) : result string :=
  match v with
  | JInt z => Ok (format_02d_int z)
  | JBool b => Ok (format_02d_int (if b then 1 else 0))
  | JStr _ => Raise ValueError
  | _ => Raise TypeError
  end.

(** [v != d] for an integer [d]: [True == 1] and [False == 0] in Python. *)
Definition ne_int (v : option json) (d : Z) : bool :=
  match v with
  | Some (JInt z) => negb (z =? d)
  | Some (JBool b) => negb ((if b then 1 else 0) =? d)
  | _ => true
  end.

(** [int(x)] of a finite float. *)
Definition int_of_float (x : Q) : Z := Z.quot (Qnum x) (Z.pos (Qden x)).

End Py.
Export Py.

(** ** pathlib: pure POSIX paths *)

Module PurePath.

(** A parsed path: the root (empty, one slash or two slashes) and the
    components, none of which is empty or a single dot. *)
Record Path : Type := mkPath { root : string; parts : list string }.

#[export] Instance Path_eq_dec : EqDecision Path.
Proof. solve_decision. Defined.

#[export] Instance Path_countable : Countable Path.
Proof.
  apply (inj_countable' (fun p => (root p, parts p))
                        (fun t => mkPath t.1 t.2)).
  intros []; reflexivity.
Defined.

(** Split at every slash. *)
Fixpoint split_slash (cur : string) (s : string) : list string :=
  match s with
  | EmptyString => [cur]
  | String c rest =>
      if Ascii.eqb c "/"%char then cur :: split_slash EmptyString rest
      else split_slash (cur +:+ String c EmptyString) rest
  end.

Definition keep_part (x : string) : bool :=
  negb (String.eqb x EmptyString) && negb (String.eqb x ".").

(** Exactly two leading slashes are kept as a root of their own. *)
Definition root_of (s : string) : string :=
  match s with
  | String "/" (String "/" (String "/" _)) => "/"
  | String "/" (String "/" _) => "//"
  | String "/" _ => "/"
  | _ => EmptyString
  end.

(** [Path(s)] *)
Definition parse (s : string) : Path :=
  mkPath (root_of s) (List.filter keep_part (split_slash EmptyString s)).

(** [p / s]: an absolute right operand replaces the left one. *)
Definition join (p : Path) (s : string) : Path :=
  let q := parse s in
  if String.eqb (root q) EmptyString then mkPath (root p) (parts p ++ parts q) else q.

(** [p] lies directly in the directory [d]. *)
Definition child_of (d p : Path) : Prop :=
  exists name, p = mkPath (root d) (parts d ++ [name]).

End PurePath.
Export PurePath.

Notation "p // s" := (join p s) (at level 40, left associativity).

#[global] Arguments join : simpl never.
#[global] Arguments parse : simpl never.

(** ** The json module: [json.dump(v, f, indent=2, ensure_ascii=False)] and
    [json.load(f)] on the integer fragment *)

Module Json.

Definition dquote : ascii := ascii_of_nat 34.
Definition backslash : ascii := ascii_of_nat 92.
Definition newline : ascii := ascii_of_nat 10.
Definition str1 (c : ascii) : string := String c EmptyString.

(** *** Writer *)

Definition hex_digit (n : nat) : ascii :=
  if (n <? 10)%nat then ascii_of_nat (48 + n) else ascii_of_nat (87 + n).

(** The encoder escapes the quote, the backslash and the control
    characters below 32; with [ensure_ascii=False] nothing else. *)
Definition escape_char (c : ascii) : string :=
  let n := nat_of_ascii c in
  if (n =? 34)%nat then String backslash (str1 dquote)
  else if (n =? 92)%nat then String backslash (str1 backslash)
  else if (n =? 10)%nat then String backslash "n"
  else if (n =? 13)%nat then String backslash "r"
  else if (n =? 9)%nat then String backslash "t"
  else if (n =? 8)%nat then String backslash "b"
  else if (n =? 12)%nat then String backslash "f"
  else if (n <? 32)%nat then
    String backslash ("u00" +:+ String (hex_digit (n / 16)) (str1 (hex_digit (n mod 16))))
  else str1 c.

Fixpoint escape (s : string) : string :=
  match s with
  | EmptyString => EmptyString
  | String c rest => escape_char c +:+ escape rest
  end.

Definition encode_string (s : string) : string :=
  String dquote (escape s +:+ str1 dquote).

Fixpoint spaces (n : nat) : string :=
  match n with
  | O => EmptyString
  | S n' => String " " (spaces n')
  end.

(** A line break followed by the indentation of nesting depth [level]. *)
Definition newline_indent (level : nat) : string :=
  String newline (spaces (2 * level)).

Fixpoint join_with (sep : string) (xs : list string) : string :=
  match xs with
  | [] => EmptyString
  | [x] => x
  | x :: rest => x +:+ sep +:+ join_with sep rest
  end.

Fixpoint encode (level : nat) (v : json) : string :=
  match v with
  | JNull => "null"
  | JBool true => "true"
  | JBool false => "false"
  | JInt z => pretty z
  | JStr s => encode_string s
  | JArr [] => "[]"
  | JArr items =>
      "[" +:+ newline_indent (S level)
          +:+ join_with ("," +:+ newline_indent (S level))
                        (List.map (encode (S level)) items)
          +:+ newline_indent level +:+ "]"
  | JObj [] => "{}"
  | JObj fields =>
      "{" +:+ newline_indent (S level)
          +:+ join_with ("," +:+ newline_indent (S level))
                        (List.map (fun kv => encode_string (fst kv) +:+ ": "
                                               +:+ encode (S level) (snd kv))
                                  fields)
          +:+ newline_indent level +:+ "}"
  end.

(** [json.dump(v, f, indent=2, ensure_ascii=False)]: the text written. *)
Definition dumps (v : json) : string := encode 0 v.

(** *** Reader *)

Definition is_ws (c : ascii) : bool :=
  let n := nat_of_ascii c in
  (n =? 32)%nat || (n =? 9)%nat || (n =? 10)%nat || (n =? 13)%nat.

Fixpoint skip_ws (s : string) : string :=
  match s with
  | String c rest => if is_ws c then skip_ws rest else s
  | EmptyString => s
  end.

Definition digit_value (c : ascii) : option Z :=
  let n := nat_of_ascii c in
  if (48 <=? n)%nat && (n <=? 57)%nat then Some (Z.of_nat (n - 48)) else None.

Definition hex_value (c : ascii) : option N :=
  let n := N_of_ascii c in
  if (48 <=? n)%N && (n <=? 57)%N then Some (n - 48)%N
  else if (97 <=? n)%N && (n <=? 102)%N then Some (n - 87)%N
  else if (65 <=? n)%N && (n <=? 70)%N then Some (n - 55)%N
  else None.

(** The longest run of decimal digits, accumulated from [acc]. *)
Fixpoint scan_digits (acc : Z) (s : string) : Z * string :=
  match s with
  | String c rest =>
      match digit_value c with
      | Some d => scan_digits (10 * acc + d) rest
      | None => (acc, s)
      end
  | EmptyString => (acc, s)
  end.

(** [0|[1-9][0-9]*]: a leading zero stands alone. *)
Definition scan_nat (s : string) : option (Z * string) :=
  match s with
  | String c rest =>
      match digit_value c with
      | Some 0 => Some (0, rest)
      | Some d => Some (scan_digits d rest)
      | None => None
      end
  | EmptyString => None
  end.

(** A number. A fraction or an exponent makes it a float, which is not in
    the fragment; a dot or an [e] that starts neither cannot follow a value
    in any JSON text, so both give no result. *)
Definition scan_int (s : string) : option (Z * string) :=
  let signed :=
    match s with
    | String "-" rest =>
        match scan_nat rest with
        | Some (n, r) => Some (- n, r)
        | None => None
        end
    | _ => scan_nat s
    end in
  match signed with
  | Some (_, String "." _) | Some (_, String "e" _) | Some (_, String "E" _) => None
  | other => other
  end.

(** The UTF-8 bytes of a code point. *)
Definition utf8 (cp : N) : string :=
  if (cp <? 128)%N then str1 (ascii_of_N cp)
  else if (cp <? 2048)%N then
    String (ascii_of_N (192 + cp / 64)) (str1 (ascii_of_N (128 + cp mod 64)))
  else if (cp <? 65536)%N then
    String (ascii_of_N (224 + cp / 4096))
      (String (ascii_of_N (128 + (cp / 64) mod 64))
         (str1 (ascii_of_N (128 + cp mod 64))))
  else
    String (ascii_of_N (240 + cp / 262144))
      (String (ascii_of_N (128 + (cp / 4096) mod 64))
         (String (ascii_of_N (128 + (cp / 64) mod 64))
            (str1 (ascii_of_N (128 + cp mod 64))))).

Definition hex4 (a b c d : ascii) : option N :=
  match hex_value a, hex_value b, hex_value c, hex_value d with
  | Some x, Some y, Some z, Some w => Some (4096 * x + 256 * y + 16 * z + w)%N
  | _, _, _, _ => None
  end.

Definition simple_escape (c : ascii) : option ascii :=
  let n := nat_of_ascii c in
  if (n =? 34)%nat || (n =? 92)%nat || (n =? 47)%nat then Some c
  else if (n =? 98)%nat then Some (ascii_of_nat 8)
  else if (n =? 102)%nat then Some (ascii_of_nat 12)
  else if (n =? 110)%nat then Some (ascii_of_nat 10)
  else if (n =? 114)%nat then Some (ascii_of_nat 13)
  else if (n =? 116)%nat then Some (ascii_of_nat 9)
  else None.

Definition prepend (pre : string) (r : option (string * string))
  : option (string * string) :=
  match r with
  | Some (body, rest) => Some (pre +:+ body, rest)
  | None => None
  end.

(** The body of a string literal after its opening quote, in strict mode:
    up to the closing quote, escapes decoded, raw control characters
    refused. A surrogate escape that is not half of a pair has no UTF-8
    form and gives no result. *)
Fixpoint scan_string (s : string) : option (string * string) :=
  match s with
  | EmptyString => None
  | String c rest =>
      let n := nat_of_ascii c in
      if (n =? 34)%nat then Some (EmptyString, rest)
      else if (n =? 92)%nat then
        match rest with
        | String "u" (String h1 (String h2 (String h3 (String h4 rest4)))) =>
            match hex4 h1 h2 h3 h4 with
            | Some cp =>
                if (55296 <=? cp)%N && (cp <=? 56319)%N then
                  match rest4 with
                  | String b (String "u" (String l1 (String l2 (String l3 (String l4 rest10))))) =>
                      match hex4 l1 l2 l3 l4 with
                      | Some lo =>
                          if (nat_of_ascii b =? 92)%nat && (56320 <=? lo)%N && (lo <=? 57343)%N
                          then prepend (utf8 (65536 + 1024 * (cp - 55296) + (lo - 56320))%N)
                                       (scan_string rest10)
                          else None
                      | None => None
                      end
                  | _ => None
                  end
                else if (56320 <=? cp)%N && (cp <=? 57343)%N then None
                else prepend (utf8 cp) (scan_string rest4)
            | None => None
            end
        | String e rest1 =>
            match simple_escape e with
            | Some d => prepend (str1 d) (scan_string rest1)
            | None => None
            end
        | EmptyString => None
        end
      else if (n <? 32)%nat then None
      else prepend (str1 c) (scan_string rest)
  end.

Definition strip_prefix (pre s : string) : option string :=
  if String.prefix pre s
  then Some (String.substring (String.length pre) (String.length s - String.length pre) s)
  else None.

(** One value at the head of [s], and the text after it. The scanner of an
    array or object loops over its entries, each of which is a value; the
    fuel bounds the number of nested calls. *)
Fixpoint scan_value (fuel : nat) (s : string) : option (json * string) :=
  match fuel with
  | O => None
  | S fuel' =>
      let scan_items :=
        fix scan_items (n : nat) (s : string) : option (list json * string) :=
          match n with
          | O => None
          | S n' =>
              match scan_value fuel' s with
              | Some (v, r) =>
                  match skip_ws r with
                  | String "]" r' => Some ([v], r')
                  | String "," r' =>
                      match scan_items n' (skip_ws r') with
                      | Some (vs, r'') => Some (v :: vs, r'')
                      | None => None
                      end
                  | _ => None
                  end
              | None => None
              end
          end in
      let scan_members :=
        fix scan_members (n : nat) (s : string)
          : option (list (string * json) * string) :=
          match n with
          | O => None
          | S n' =>
              match s with
              | String q r0 =>
                  if (nat_of_ascii q =? 34)%nat then
                    match scan_string r0 with
                    | Some (k, r1) =>
                        match skip_ws r1 with
                        | String ":" r2 =>
                            match scan_value fuel' (skip_ws r2) with
                            | Some (v, r3) =>
                                match skip_ws r3 with
                                | String "}" r4 => Some ([(k, v)], r4)
                                | String "," r4 =>
                                    match scan_members n' (skip_ws r4) with
                                    | Some (kvs, r5) => Some ((k, v) :: kvs, r5)
                                    | None => None
                                    end
                                | _ => None
                                end
                            | None => None
                            end
                        | _ => None
                        end
                    | None => None
                    end
                  else None
              | EmptyString => None
              end
          end in
      match s with
      | String "[" r =>
          match skip_ws r with
          | String "]" r' => Some (JArr [], r')
          | r' =>
              match scan_items (String.length r') r' with
              | Some (vs, r'') => Some (JArr vs, r'')
              | None => None
              end
          end
      | String "{" r =>
          match skip_ws r with
          | String "}" r' => Some (JObj [], r')
          | r' =>
              match scan_members (String.length r') r' with
              | Some (kvs, r'') =>
                  Some (JObj (fold_left (fun d kv => assoc_set (fst kv) (snd kv) d) kvs []), r'')
              | None => None
              end
          end
      | String c r =>
          if (nat_of_ascii c =? 34)%nat then
            match scan_string r with
            | Some (str, r') => Some (JStr str, r')
            | None => None
            end
          else
            match strip_prefix "null" s, strip_prefix "true" s, strip_prefix "false" s with
            | Some r', _, _ => Some (JNull, r')
            | _, Some r', _ => Some (JBool true, r')
            | _, _, Some r' => Some (JBool false, r')
            | None, None, None =>
                match scan_int s with
                | Some (z, r') => Some (JInt z, r')
                | None => None
                end
            end
      | EmptyString => None
      end
  end.

(** [json.loads(text)]: one value, surrounded by white space only. No result
    stands for [JSONDecodeError] (or for a text outside the fragment). *)
Definition loads (text : string) : option json :=
  match scan_value (S (String.length text)) (skip_ws text) with
  | Some (v, rest) =>
      match skip_ws rest with
      | EmptyString => Some v
      | _ => None
      end
  | None => None
  end.

End Json.

(** ** The file system and the effects of the script *)

Module Effects.

Inductive node : Type :=
| File (content : string)
| Dir.

(** What the script prints, by message, and its calls to the speech
    service. *)
Inductive event : Type :=
| PrintTourNotFound (tour_folder : string)
| PrintProcessing (name : json)
| PrintVoice (voice : string)
| PrintStops (count : nat)
| PrintSkipping (stop_id stop_name : json)
| PrintGenerating (stop_id stop_name : json)
| Synthesis (text : json) (output_path : Path) (voice : string)
| PrintDone (size : nat)
| PrintError (msg : string)
| PrintComplete (audio_dir : Path)
| PrintInstallNote
| PrintWarning (audio_file : string) (msg : string)
| PrintUpdated.

Record outcome (A : Type) : Type := mkOutcome {
  value : result A;
  files : gmap Path node;
  trace : list event
}.
Arguments mkOutcome {A} value files trace.
Arguments value {A} o.
Arguments files {A} o.
Arguments trace {A} o.

(** A computation reads and writes the file system, prints, and returns or
    raises. *)
Definition M (A : Type) : Type := gmap Path node -> outcome A.

#[export] Instance M_ret : MRet M :=
  fun A a fs => mkOutcome (Ok a) fs [].

#[export] Instance M_bind : MBind M :=
  fun A B k m fs =>
    match m fs with
    | mkOutcome (Ok a) fs' t =>
        match k a fs' with
        | mkOutcome r fs'' t' => mkOutcome r fs'' (t ++ t')
        end
    | mkOutcome (Raise e) fs' t => mkOutcome (Raise e) fs' t
    end.

Definition lift {A} (r : result A) : M A := fun fs => mkOutcome r fs [].

Definition print (e : event) : M unit := fun fs => mkOutcome (Ok tt) fs [e].

(** [try: body except Exception as e: handler(e)] *)
Definition try_except {A} (body : M A) (handler : exn -> M A) : M A :=
  fun fs =>
    match body fs with
    | mkOutcome (Ok a) fs' t => mkOutcome (Ok a) fs' t
    | mkOutcome (Raise e) fs' t =>
        match handler e fs' with
        | mkOutcome r fs'' t' => mkOutcome r fs'' (t ++ t')
        end
    end.

(** [p.exists()] *)
Definition path_exists (p : Path) : M bool :=
  fun fs => mkOutcome (Ok (bool_decide (is_Some (fs !! p)))) fs [].

(** [open(p, 'r').read()] *)
Definition read_text (p : Path) : M string :=
  fun fs =>
    match fs !! p with
    | Some (File content) => mkOutcome (Ok content) fs []
    | Some Dir => mkOutcome (Raise IsADirectoryError) fs []
    | None => mkOutcome (Raise FileNotFoundError) fs []
    end.

(** [open(p, 'w').write(content)] *)
Definition write_text (p : Path) (content : string) : M unit :=
  fun fs =>
    match fs !! p with
    | Some Dir => mkOutcome (Raise IsADirectoryError) fs []
    | _ => mkOutcome (Ok tt) (<[p := File content]> fs) []
    end.

(** [p.mkdir(exist_ok=True)] *)
Definition mkdir_exist_ok (p : Path) : M unit :=
  fun fs =>
    match fs !! p with
    | Some Dir => mkOutcome (Ok tt) fs []
    | Some (File _) => mkOutcome (Raise FileExistsError) fs []
    | None => mkOutcome (Ok tt) (<[p := Dir]> fs) []
    end.

(** [p.stat().st_size] *)
Definition stat_size (p : Path) : M nat :=
  fun fs =>
    match fs !! p with
    | Some (File content) => mkOutcome (Ok (String.length content)) fs []
    | Some Dir => mkOutcome (Ok 0%nat) fs []
    | None => mkOutcome (Raise FileNotFoundError) fs []
    end.

(** [json.load(f)] *)
Definition json_load (text : string) : M json :=
  lift (match Json.loads text with
        | Some v => Ok v
        | None => Raise JSONDecodeError
        end).

End Effects.
Export Effects.

(** ** The script *)

(** What [Communicate(text, voice).save(path)] does: it writes the audio, or
    it raises, possibly after leaving a partial file at the path. *)
Inductive save_result : Type :=
| Saved (audio : string)
| SaveFailed (e : exn) (partial : option string).

Section Script.

(** The speech service; its answer may depend on the files present. *)
Variable edge_tts : json -> string -> Path -> gmap Path node -> save_result.

(** Whether [from mutagen.mp3 import MP3] succeeds. *)
Variable mutagen_installed : bool.

(** [MP3(path).info.length] for a file with the given bytes; raises for an
    unreadable file, and for a length that [int] rejects. *)
Variable mutagen_length : string -> result Q.

(** [generate_audio(text, output_path, voice)] *)
Definition generate_audio (text : json) (output_path : Path) (voice : string)
  : M unit :=
  fun fs =>
    match edge_tts text voice output_path fs with
    | Saved audio =>
        mkOutcome (Ok tt) (<[output_path := File audio]> fs)
                  [Synthesis text output_path voice]
    | SaveFailed e partial =>
        mkOutcome (Raise e)
                  (match partial with
                   | Some bytes => <[output_path := File bytes]> fs
                   | None => fs
                   end)
                  [Synthesis text output_path voice]
    end.

(** [stop.get('audioFile', f"audio/{stop_id:02d}-stop.mp3")]: the default
    is evaluated whether or not the key is there. *)
Definition get_audio_file (stop stop_id : json) : result json :=
  found ← get stop "audioFile";
  number ← format_02d stop_id;
  mret (default (JStr ("audio/" +:+ number +:+ "-stop.mp3")) found).

(** Lines 100-103 of [process_tour]. *)
Definition output_path_of (tour_path : Path) (audio_file : json) : result Path :=
  match audio_file with
  | JStr name =>
      if String.prefix "audio/" name then Ok (tour_path // name)
      else Ok (tour_path // "audio" // name)
  | _ => Raise AttributeError
  end.

(** Lines 105-121 of [process_tour]: skip the stop, or synthesise its audio.
    [None]: go on with the next stop; [Some b]: the function returns [b]. *)
Definition generate_unless_present (voice : string) (overwrite : bool)
           (stop_id stop_name script : json) (output_path : Path)
  : M (option bool) :=
  present ← path_exists output_path;
  if present && negb overwrite then
    print (PrintSkipping stop_id stop_name);;
    mret None
  else
    print (PrintGenerating stop_id stop_name);;
    try_except
      (generate_audio script output_path voice;;
       size ← stat_size output_path;
       print (PrintDone size);;
       mret None)
      (fun e => print (PrintError (exn_message e));; mret (Some false)).

(** The body of the loop of [process_tour]. *)
Definition process_stop (tour_path : Path) (voice : string) (overwrite : bool)
           (stop : json) : M (option bool) :=
  stop_id ← lift (getitem stop "id");
  stop_name ← lift (getitem stop "name");
  script ← lift (getitem stop "script");
  audio_file ← lift (get_audio_file stop stop_id);
  output_path ← lift (output_path_of tour_path audio_file);
  generate_unless_present voice overwrite stop_id stop_name script output_path.

(** [for stop in stops: body], where the body may return from the
    function. *)
Fixpoint for_each (body : json -> M (option bool)) (stops : list json)
  : M (option bool) :=
  match stops with
  | [] => mret None
  | stop :: rest =>
      r ← body stop;
      match r with
      | Some b => mret (Some b)
      | None => for_each body rest
      end
  end.

(** [process_tour(tour_folder, voice, overwrite)] *)
Definition process_tour (tour_folder : string) (voice : string)
           (overwrite : bool) : M bool :=
  let tour_path := parse tour_folder in
  let tour_json_path := tour_path // "tour.json" in
  present ← path_exists tour_json_path;
  if negb present then
    print (PrintTourNotFound tour_folder);;
    mret false
  else
    text ← read_text tour_json_path;
    tour ← json_load text;
    name ← lift (getitem tour "name");
    print (PrintProcessing name);;
    print (PrintVoice voice);;
    stops ← lift (getitem tour "stops");
    count ← lift (len stops);
    print (PrintStops count);;
    let audio_dir := tour_path // "audio" in
    mkdir_exist_ok audio_dir;;
    stops ← lift (getitem tour "stops");
    items ← lift (iter stops);
    r ← for_each (process_stop tour_path voice overwrite) items;
    match r with
    | Some b => mret b
    | None => print (PrintComplete audio_dir);; mret true
    end.

(** Lines 145-150 of [update_tour_durations]: the audio file of a stop. *)
Definition audio_path_of (tour_path : Path) (stop : json) : result (string * Path) :=
  found ← get stop "audioFile";
  stop_id ← getitem stop "id";
  number ← format_02d stop_id;
  match default (JStr ("audio/" +:+ number +:+ "-stop.mp3")) found with
  | JStr audio_file =>
      if String.prefix "audio/" audio_file
      then Ok (audio_file, tour_path // audio_file)
      else Ok (audio_file, tour_path // "audio" // audio_file)
  | _ => Raise AttributeError
  end.

(** [int(MP3(str(audio_path)).info.length)] *)
Definition read_duration (audio_path : Path) : M Z :=
  bytes ← read_text audio_path;
  seconds ← lift (mutagen_length bytes);
  mret (int_of_float seconds).

(** The body of the loop of [update_tour_durations]: the stop as the body
    leaves it, and whether the body set [updated]. *)
Definition update_stop (tour_path : Path) (stop : json) : M (json * bool) :=
  resolved ← lift (audio_path_of tour_path stop);
  let audio_file := resolved.1 in
  let audio_path := resolved.2 in
  present ← path_exists audio_path;
  if (present : bool) then
    try_except
      (duration ← read_duration audio_path;
       recorded ← lift (get stop "audioDuration");
       if ne_int recorded duration
       then mret (setitem stop "audioDuration" (JInt duration), true)
       else mret (stop, false))
      (fun e => print (PrintWarning audio_file (exn_message e));;
                mret (stop, false))
  else mret (stop, false).

(** The loop: the stops as mutated, and the flag [updated]. *)
Fixpoint update_stops (tour_path : Path) (stops : list json)
  : M (list json * bool) :=
  match stops with
  | [] => mret ([], false)
  | stop :: rest =>
      first ← update_stop tour_path stop;
      others ← update_stops tour_path rest;
      mret (first.1 :: others.1, first.2 || others.2)
  end.

(** The value of [tour['stops']] after the loop: only the items of a list
    are objects that the loop can have mutated. *)
Definition with_items (stops : json) (items : list json) : json :=
  match stops with
  | JArr _ => JArr items
  | _ => stops
  end.

(** [update_tour_durations(tour_folder)] *)
Definition update_tour_durations (tour_folder : string) : M unit :=
  if negb mutagen_installed then
    print PrintInstallNote
  else
    let tour_path := parse tour_folder in
    let tour_json_path := tour_path // "tour.json" in
    text ← read_text tour_json_path;
    tour ← json_load text;
    stops ← lift (getitem tour "stops");
    items ← lift (iter stops);
    looped ← update_stops tour_path items;
    let items' := looped.1 in
    let updated : bool := looped.2 in
    if updated then
      write_text tour_json_path
                 (Json.dumps (setitem tour "stops" (with_items stops items')));;
      print PrintUpdated
    else mret tt.

End Script.


(** ** The behaviour in the words of the specification *)

(** The audio file of a stop with identifier [stop_id] and optional explicit
    [audioFile]: the explicit name if there is one, else the default made of
    the identifier in two digits; a name that starts with the audio folder is
    joined to the tour folder, any other to its audio subdirectory. *)
Definition spec_audio_file (stop_id : Z) (audio_file : option string) : string :=
  default ("audio/" +:+ format_02d_int stop_id +:+ "-stop.mp3") audio_file.

Definition spec_audio_path (tour_path : Path) (stop_id : Z)
           (audio_file : option string) : Path :=
  let name := spec_audio_file stop_id audio_file in
  if String.prefix "audio/" name then tour_path // name
  else tour_path // "audio" // name.

(** The second component of a result. *)
Definition result_snd {A B} (r : result (A * B)) : result B :=
  match r with
  | Ok ab => Ok ab.2
  | Raise e => Raise e
  end.

(** The file system once [audio_dir.mkdir(exist_ok=True)] has succeeded. *)
Definition with_audio_dir (audio_dir : Path) (fs : gmap Path node)
  : gmap Path node :=
  match fs !! audio_dir with
  | None => <[audio_dir := Dir]> fs
  | Some _ => fs
  end.

(** The file system after a synthesis call that failed, leaving what it had
    written so far. *)
Definition with_partial (p : Path) (partial : option string)
           (fs : gmap Path node) : gmap Path node :=
  match partial with
  | Some bytes => <[p := File bytes]> fs
  | None => fs
  end.

(** What [process_tour] makes of the result of its loop. *)
Definition loop_result (r : result (option bool)) : result bool :=
  match r with
  | Ok (Some b) => Ok b
  | Ok None => Ok true
  | Raise e => Raise e
  end.

(** What [process_tour] prints after its loop. *)
Definition loop_epilogue (audio_dir : Path) (r : result (option bool))
  : list event :=
  match r with
  | Ok None => [PrintComplete audio_dir]
  | _ => []
  end.

(** The trace [t] has a synthesis call for [stop]: its script, sent to its
    audio path. *)
Definition synthesised (tour_path : Path) (voice : string) (t : list event)
           (stop : json) : Prop :=
  exists script audio_file p,
    getitem stop "script" = Ok script /\
    audio_path_of tour_path stop = Ok (audio_file, p) /\
    Synthesis script p voice ∈ t.


(** *** Durations, in the words of the specification *)

Section Durations.

Variable mutagen_length : string -> result Q.
Variable fs : gmap Path node.
Variable tour_path : Path.

(** The duration recorded in a stop, if any. *)
Definition recorded_duration (stop : json) : option json :=
  match stop with
  | JObj kv => assoc "audioDuration" kv
  | _ => None
  end.

(** The actual duration of the file at [p] in whole seconds: none when there
    is no such file, an error when it cannot be read. *)
Definition measured (p : Path) : option (result Z) :=
  match fs !! p with
  | None => None
  | Some Dir => Some (Raise IsADirectoryError)
  | Some (File bytes) =>
      Some (match mutagen_length bytes with
            | Ok seconds => Ok (int_of_float seconds)
            | Raise e => Raise e
            end)
  end.

(** The actual duration of the stop's audio file, when it can be read. *)
Definition actual_duration (stop : json) : option Z :=
  match audio_path_of tour_path stop with
  | Ok (_, p) =>
      match measured p with
      | Some (Ok d) => Some d
      | _ => None
      end
  | Raise _ => None
  end.

(** The stop's actual duration differs from the recorded one. *)
Definition duration_differs (stop : json) : bool :=
  match actual_duration stop with
  | Some d => ne_int (recorded_duration stop) d
  | None => false
  end.

(** The stop with its duration corrected where it differs. *)
Definition corrected_stop (stop : json) : json :=
  match actual_duration stop with
  | Some d =>
      if ne_int (recorded_duration stop) d
      then setitem stop "audioDuration" (JInt d)
      else stop
  | None => stop
  end.

(** The warning for a stop whose audio file is there but unreadable. *)
Definition duration_warning (stop : json) : list event :=
  match audio_path_of tour_path stop with
  | Ok (audio_file, p) =>
      match measured p with
      | Some (Raise e) => [PrintWarning audio_file (exn_message e)]
      | _ => []
      end
  | Raise _ => []
  end.


End Durations.



(** ** Audio files written by a run *)

#[export] Instance node_eq_dec : EqDecision node.
Proof. solve_decision. Defined.

(** The paths that hold a file after the run and held nothing before it. *)
Definition new_files (before after : gmap Path node) : gset Path :=
  dom (filter (fun entry => before !! entry.1 = None /\ entry.2 <> Dir) after).

(** A stop with the integer identifier [z] and no explicit audio file. *)
Definition default_stop (stop : json) (z : Z) : Prop :=
  exists kv stop_name script,
    stop = JObj kv /\ assoc "id" kv = Some (JInt z) /\
    assoc "name" kv = Some stop_name /\ assoc "script" kv = Some script /\
    assoc "audioFile" kv = None.

(** The default audio file of the stop numbered [z]. *)
Definition default_audio (tour_path : Path) (z : Z) : Path :=
  tour_path // ("audio/" +:+ format_02d_int z +:+ "-stop.mp3").

(** Every character of the string passes the test. *)
Fixpoint all_chars (test : ascii -> bool) (s : string) : bool :=
  match s with
  | EmptyString => true
  | String c rest => test c && all_chars test rest
  end.

Definition is_digit (c : ascii) : bool :=
  let n := nat_of_ascii c in (48 <=? n)%nat && (n <=? 57)%nat.

Definition is_minus (c : ascii) : bool := (nat_of_ascii c =? 45)%nat.

Definition in_number (c : ascii) : bool := is_digit c || is_minus c.

(** ** Layout of the rewritten document *)




(** ** A small tour, for concrete runs *)

Module Demo.

Definition gate : json :=
  JObj [("id", JInt 1); ("name", JStr "Gate"); ("script", JStr "Welcome.")].

Definition square : json :=
  JObj [("id", JInt 2); ("name", JStr "Square"); ("script", JStr "The square.");
        ("audioFile", JStr "square.mp3"); ("audioDuration", JInt 4)].

Definition bridge : json :=
  JObj [("id", JInt 3); ("name", JStr "Bridge"); ("script", JStr "Goodbye.");
        ("audioFile", JStr "audio/bridge.mp3"); ("audioDuration", JInt 9)].

Definition tour : json :=
  JObj [("name", JStr "Old Town"); ("stops", JArr [gate; square; bridge])].

Definition tour_path : Path := parse "tours/old-town".

Definition voice : string := "en-GB-RyanNeural".

Definition gate_audio : Path := tour_path // "audio/01-stop.mp3".
Definition square_audio : Path := tour_path // "audio" // "square.mp3".
Definition bridge_audio : Path := tour_path // "audio/bridge.mp3".

(** A tour folder that holds the document and nothing else. *)
Definition fresh : gmap Path node :=
  {[ tour_path // "tour.json" := File (Json.dumps tour) ]}.

(** The same folder with the three audio files in place. *)
Definition generated : gmap Path node :=
  <[gate_audio := File "ID3 Welcome."]>
  (<[square_audio := File "ID3 The square."]>
   (<[bridge_audio := File "ID3 Goodbye."]>
    (<[tour_path // "audio" := Dir]> fresh))).

(** The document once the gate's duration is recorded, and the folder that
    holds it with the audio files. *)
Definition tour_timed : json :=
  JObj [("name", JStr "Old Town");
        ("stops", JArr [setitem gate "audioDuration" (JInt 3); square; bridge])].

Definition timed : gmap Path node :=
  <[tour_path // "tour.json" := File (Json.dumps tour_timed)]> generated.

(** A service that always answers. *)
Definition tts_up (text : json) (voice : string) (p : Path)
           (fs : gmap Path node) : save_result :=
  match text with
  | JStr s => Saved ("ID3 " +:+ s)
  | _ => SaveFailed TypeError None
  end.

(** A service that is down for the second stop, after it has opened the
    output file. *)
Definition tts_flaky (text : json) (voice : string) (p : Path)
           (fs : gmap Path node) : save_result :=
  match text with
  | JStr "The square." => SaveFailed (Exception "connection reset") (Some EmptyString)
  | JStr s => Saved ("ID3 " +:+ s)
  | _ => SaveFailed TypeError None
  end.

(** A metadata reader: 3.5 s for the gate, 4.2 s for the square, 9.9 s for
    the bridge. *)
Definition lengths (bytes : string) : result Q :=
  match bytes with
  | "ID3 Welcome." => Ok (7 # 2)%Q
  | "ID3 The square." => Ok (21 # 5)%Q
  | "ID3 Goodbye." => Ok (99 # 10)%Q
  | _ => Raise (Exception "can't sync to MPEG frame")
  end.


(** A document whose stops leave the file name to the default. *)
Definition arch : json :=
  JObj [("id", JInt 12); ("name", JStr "Arch"); ("script", JStr "Look up.")].

Definition plain_tour : json :=
  JObj [("name", JStr "Old Town"); ("stops", JArr [gate; arch])].

Definition plain : gmap Path node :=
  {[ tour_path // "tour.json" := File (Json.dumps plain_tour) ]}.

(** A document in which two stops carry the same identifier. *)
Definition gate_again : json :=
  JObj [("id", JInt 1); ("name", JStr "Gate, again"); ("script", JStr "Welcome back.")].

Definition twin_tour : json :=
  JObj [("name", JStr "Old Town"); ("stops", JArr [gate; gate_again])].

Definition twins : gmap Path node :=
  {[ tour_path // "tour.json" := File (Json.dumps twin_tour) ]}.





End Demo.

(** * Properties *)

(** ** Strings *)

Lemma prefix_append (a b : string) : String.prefix a (a +:+ b) = true.
Proof.
  induction a as [|c a IH]; simpl.
  - destruct b; reflexivity.
  - destruct (ascii_dec c c); [exact IH | congruence].
Qed.

Lemma append_cons (x : ascii) (a b : string) :
  String x a +:+ b = String x (a +:+ b).
Proof. reflexivity. Qed.

Lemma append_assoc (a b c : string) : (a +:+ b) +:+ c = a +:+ (b +:+ c).
Proof.
  induction a as [|x a IH]; [reflexivity|]. rewrite !append_cons, IH. reflexivity.
Qed.

Lemma append_nil_r (a : string) : a +:+ EmptyString = a.
Proof.
  induction a as [|x a IH]; [reflexivity|]. rewrite append_cons, IH. reflexivity.
Qed.

Lemma append_length (a b : string) :
  String.length (a +:+ b) = (String.length a + String.length b)%nat.
Proof.
  induction a as [|x a IH]; [reflexivity|]. rewrite append_cons. simpl.
  rewrite IH. reflexivity.
Qed.

Lemma append_cancel_r (a b c : string) : a +:+ c = b +:+ c -> a = b.
Proof.
  revert b. induction a as [|x a IH]; intros [|y b] H.
  - reflexivity.
  - apply (f_equal String.length) in H. rewrite !append_length in H. simpl in H. lia.
  - apply (f_equal String.length) in H. rewrite !append_length in H. simpl in H. lia.
  - rewrite !append_cons in H. injection H as -> H. f_equal. apply IH, H.
Qed.

Lemma all_chars_append test (a b : string) :
  all_chars test (a +:+ b) = all_chars test a && all_chars test b.
Proof.
  induction a as [|x a IH]; [reflexivity|]. rewrite append_cons. simpl.
  rewrite IH, andb_assoc. reflexivity.
Qed.

Lemma all_chars_impl (test test' : ascii -> bool) (s : string) :
  (forall c, test c = true -> test' c = true) ->
  all_chars test s = true -> all_chars test' s = true.
Proof.
  intros Himpl. induction s as [|c s IH]; [reflexivity|]. simpl.
  rewrite !andb_true_iff. intros [Hc Hs]. auto.
Qed.

(** *** Decimal numerals *)

Lemma pretty_N_char_digit (d : N) : is_digit (pretty_N_char d) = true.
Proof. unfold pretty_N_char. repeat case_match; reflexivity. Qed.

Lemma pretty_N_go_digits (x : N) (s : string) :
  all_chars in_number s = true -> all_chars in_number (pretty_N_go x s) = true.
Proof.
  revert s. induction (N.lt_wf_0 x) as [x _ IH]. intros s Hs.
  destruct (decide (x = 0)%N) as [->|Hpos]; [exact Hs|].
  rewrite pretty_N_go_step by lia.
  apply IH; [apply N.div_lt; lia|].
  simpl. unfold in_number at 1. rewrite pretty_N_char_digit. exact Hs.
Qed.

Lemma pretty_Z_digits (z : Z) : all_chars in_number (pretty z) = true.
Proof.
  destruct z as [|p|p]; [reflexivity| |].
  - unfold pretty, pretty_Z, pretty, pretty_positive, pretty, pretty_N.
    case_decide; [reflexivity|]. apply pretty_N_go_digits. reflexivity.
  - unfold pretty, pretty_Z. change ("-" +:+ pretty p) with (String "-" (pretty p)).
    simpl. unfold pretty, pretty_positive, pretty, pretty_N.
    case_decide; [reflexivity|]. apply pretty_N_go_digits. reflexivity.
Qed.

(** A positive number starts with a digit that is not zero. *)
Lemma pretty_N_go_head (x : N) (s : string) :
  (0 < x)%N ->
  exists c rest, pretty_N_go x s = String c rest /\ c <> "0"%char.
Proof.
  revert s. induction (N.lt_wf_0 x) as [x _ IH]. intros s Hpos.
  rewrite pretty_N_go_step by exact Hpos.
  destruct (decide (x `div` 10 = 0)%N) as [Hz|Hnz].
  - rewrite Hz, pretty_N_go_0. eexists _, _. split; [reflexivity|].
    assert (x < 10)%N by (apply N.div_small_iff in Hz; lia).
    rewrite N.mod_small by lia.
    assert (x = 1 \/ x = 2 \/ x = 3 \/ x = 4 \/ x = 5 \/ x = 6 \/ x = 7 \/ x = 8 \/ x = 9)%N
      as Hx by lia.
    destruct Hx as [->|[->|[->|[->|[->|[->|[->|[->| ->]]]]]]]]; discriminate.
  - apply IH; [apply N.div_lt; lia | apply N.neq_0_lt_0; exact Hnz].
Qed.

Lemma format_02d_int_inj (a b : Z) : format_02d_int a = format_02d_int b -> a = b.
Proof.
  assert (forall a b : Z, 0 <= a < 10 -> ~ (0 <= b < 10) ->
                          String "0" (pretty a) <> pretty b) as Hmixed.
  { clear. intros a [|p|p] Ha Hb H; [lia| |discriminate H].
    unfold pretty at 2, pretty_Z, pretty, pretty_positive, pretty, pretty_N in H.
    case_decide; [discriminate|].
    destruct (pretty_N_go_head (N.pos p) EmptyString) as (c & rest & Heq & Hc); [lia|].
    rewrite Heq in H. injection H as H _. congruence. }
  unfold format_02d_int.
  destruct ((0 <=? a) && (a <? 10)) eqn:Ea; destruct ((0 <=? b) && (b <? 10)) eqn:Eb.
  - intros H. injection H as H. apply (inj pretty), H.
  - intros H. exfalso. apply (Hmixed a b); [lia | lia | exact H].
  - intros H. exfalso. apply (Hmixed b a); [lia | lia | symmetry; exact H].
  - apply (inj pretty).
Qed.

(** ** Running computations *)

Lemma run_bind_ok {A B} (m : M A) (k : A -> M B) fs a fs' t :
  m fs = mkOutcome (Ok a) fs' t ->
  (m ≫= k) fs = mkOutcome (value (k a fs')) (files (k a fs')) (t ++ trace (k a fs')).
Proof.
  intros H. unfold mbind, M_bind. rewrite H. destruct (k a fs'); reflexivity.
Qed.

Lemma run_bind_raise {A B} (m : M A) (k : A -> M B) fs e fs' t :
  m fs = mkOutcome (Raise e) fs' t ->
  (m ≫= k) fs = mkOutcome (Raise e) fs' t.
Proof. intros H. unfold mbind, M_bind. rewrite H. reflexivity. Qed.

Lemma run_pure {A B} (m : M A) (k : A -> M B) fs a :
  m fs = mkOutcome (Ok a) fs [] -> (m ≫= k) fs = k a fs.
Proof.
  intros H. rewrite (run_bind_ok _ _ _ _ _ _ H). destruct (k a fs); reflexivity.
Qed.

Lemma run_lift_ok {A B} (a : A) (k : A -> M B) fs :
  (lift (Ok a) ≫= k) fs = k a fs.
Proof. apply run_pure. reflexivity. Qed.

Lemma run_mret {A B} (a : A) (k : A -> M B) fs :
  (mret a ≫= k) fs = k a fs.
Proof. apply run_pure. reflexivity. Qed.

Lemma run_lift_raise {A B} (e : exn) (k : A -> M B) fs :
  (lift (Raise e) ≫= k) fs = mkOutcome (Raise e) fs [].
Proof. reflexivity. Qed.

Lemma run_print {B} (e : event) (k : unit -> M B) fs :
  (print e ≫= k) fs = mkOutcome (value (k tt fs)) (files (k tt fs)) (e :: trace (k tt fs)).
Proof. apply (run_bind_ok (print e) k fs tt fs [e]). reflexivity. Qed.

Lemma run_path_exists {B} (p : Path) (k : bool -> M B) fs :
  (path_exists p ≫= k) fs = k (bool_decide (is_Some (fs !! p))) fs.
Proof. apply run_pure. reflexivity. Qed.

#[local] Arguments String.prefix : simpl never.

(** Push a run through the pure steps at its head. *)
Ltac run :=
  repeat first
    [ rewrite run_lift_ok | rewrite run_lift_raise | rewrite run_mret
    | rewrite run_path_exists | rewrite run_print ];
  simpl.

(** ** Missing input file *)

(** C4: with no [tour.json] in the tour folder, [process_tour] prints the
    error and returns [False]; the file system is as it was, so nothing was
    read, created or written, and the speech service was not called. *)
Theorem process_tour_missing_json edge_tts tour_folder voice overwrite
    (fs : gmap Path node) :
  fs !! (parse tour_folder // "tour.json") = None ->
  process_tour edge_tts tour_folder voice overwrite fs
  = mkOutcome (Ok false) fs [PrintTourNotFound tour_folder].
Proof.
  intros Hnone. unfold process_tour.
  rewrite run_path_exists, Hnone.
  rewrite bool_decide_eq_false_2 by (intros [? ?]; discriminate).
  reflexivity.
Qed.

Lemma process_tour_missing_json_witness :
  (∅ : gmap Path node) !! (parse "tours/old-town" // "tour.json") = None
  /\ process_tour Demo.tts_up "tours/old-town" Demo.voice false ∅
     = mkOutcome (Ok false) ∅ [PrintTourNotFound "tours/old-town"].
Proof.
  split; [reflexivity | apply process_tour_missing_json; reflexivity].
Defined.

(** ** Missing metadata reader *)

(** C8: without mutagen, [update_tour_durations] prints the note and returns
    normally; the file system, [tour.json] included, is as it was. *)
Theorem update_without_mutagen mutagen_length tour_folder (fs : gmap Path node) :
  update_tour_durations false mutagen_length tour_folder fs
  = mkOutcome (Ok tt) fs [PrintInstallNote].
Proof. reflexivity. Qed.

(** ** The loop body of [process_tour] *)

Lemma get_object_ok (stop : json) (key : string) (v : json) :
  getitem stop key = Ok v -> exists kv, stop = JObj kv /\ assoc key kv = Some v.
Proof.
  destruct stop; try discriminate. simpl.
  destruct (assoc key fields) eqn:E; intros [= <-]. eauto.
Qed.

Lemma write_path_read_path (tour_path : Path) (stop stop_id : json) :
  getitem stop "id" = Ok stop_id ->
  get_audio_file stop stop_id ≫= output_path_of tour_path
  = result_snd (audio_path_of tour_path stop).
Proof.
  intros Hid. destruct (get_object_ok _ _ _ Hid) as (kv & -> & Hkv).
  unfold get_audio_file, audio_path_of, output_path_of, mbind, result_bind, mret, result_ret.
  simpl. rewrite Hkv.
  destruct (format_02d stop_id) as [number|e]; [|reflexivity].
  destruct (default _ (assoc "audioFile" kv)) as [| | |name| |]; try reflexivity.
  destruct (String.prefix "audio/" name); reflexivity.
Qed.
Lemma process_stop_resolved edge_tts tour_path voice overwrite stop fs :
  process_stop edge_tts tour_path voice overwrite stop fs
  = match getitem stop "id", getitem stop "name", getitem stop "script" with
    | Ok stop_id, Ok stop_name, Ok script =>
        match audio_path_of tour_path stop with
        | Ok (_, p) => generate_unless_present edge_tts voice overwrite stop_id stop_name script p fs
        | Raise e => mkOutcome (Raise e) fs []
        end
    | Raise e, _, _ | Ok _, Raise e, _ | Ok _, Ok _, Raise e => mkOutcome (Raise e) fs []
    end.
Proof.
  unfold process_stop.
  destruct (getitem stop "id") as [stop_id|e] eqn:Hid; run; [|reflexivity].
  destruct (getitem stop "name") as [stop_name|e]; run; [|reflexivity].
  destruct (getitem stop "script") as [script|e]; run; [|reflexivity].
  pose proof (write_path_read_path tour_path stop stop_id Hid) as Hw.
  destruct (get_audio_file stop stop_id) as [af|e]; run.
  - change (Ok af ≫= output_path_of tour_path) with (output_path_of tour_path af) in Hw.
    rewrite Hw. destruct (audio_path_of tour_path stop) as [[name p]|e]; simpl; run; reflexivity.
  - change (Raise e = result_snd (audio_path_of tour_path stop)) in Hw.
    destruct (audio_path_of tour_path stop) as [[name p]|e']; [discriminate|].
    simpl in Hw. congruence.
Qed.

(** The write a failed synthesis may leave behind. *)

Lemma generate_unless_present_run edge_tts voice overwrite stop_id stop_name script p
    (fs : gmap Path node) :
  generate_unless_present edge_tts voice overwrite stop_id stop_name script p fs
  = if bool_decide (is_Some (fs !! p)) && negb overwrite
    then mkOutcome (Ok None) fs [PrintSkipping stop_id stop_name]
    else match edge_tts script voice p fs with
         | Saved audio =>
             mkOutcome (Ok None) (<[p := File audio]> fs)
                       [PrintGenerating stop_id stop_name; Synthesis script p voice;
                        PrintDone (String.length audio)]
         | SaveFailed e partial =>
             mkOutcome (Ok (Some false))
                       (match partial with
                        | Some bytes => <[p := File bytes]> fs
                        | None => fs
                        end)
                       [PrintGenerating stop_id stop_name; Synthesis script p voice;
                        PrintError (exn_message e)]
         end.
Proof.
  unfold generate_unless_present. run.
  destruct (bool_decide (is_Some (fs !! p)) && negb overwrite); run; [reflexivity|].
  unfold try_except, generate_audio, mbind, M_bind, stat_size, print, mret, M_ret.
  destruct (edge_tts script voice p fs) as [audio|e partial]; simpl.
  - rewrite lookup_insert_eq. reflexivity.
  - reflexivity.
Qed.

(** ** The loop of [process_tour] *)

Lemma for_each_app body (pre post : list json) fs fs1 t1 :
  for_each body pre fs = mkOutcome (Ok None) fs1 t1 ->
  for_each body (pre ++ post) fs
  = mkOutcome (value (for_each body post fs1)) (files (for_each body post fs1))
              (t1 ++ trace (for_each body post fs1)).
Proof.
  revert fs t1. induction pre as [|stop pre IH]; intros fs t1; simpl.
  - intros [= <- <-]. destruct (for_each body post fs); reflexivity.
  - unfold mbind, M_bind.
    destruct (body stop fs) as [[[b|]|e] fs' t']; simpl; try discriminate.
    destruct (for_each body pre fs') as [r fs'' t''] eqn:Hpre.
    intros [= -> -> <-].
    rewrite (IH _ _ Hpre). simpl. rewrite app_assoc. reflexivity.
Qed.

Lemma for_each_return body (stop : json) (rest : list json) fs b fs1 t1 :
  body stop fs = mkOutcome (Ok (Some b)) fs1 t1 ->
  for_each body (stop :: rest) fs = mkOutcome (Ok (Some b)) fs1 t1.
Proof.
  intros H. simpl. rewrite (run_bind_ok _ _ _ _ _ _ H). simpl.
  rewrite app_nil_r. reflexivity.
Qed.

Lemma process_tour_run edge_tts tour_folder voice overwrite (fs : gmap Path node)
    text tour name stops items :
  fs !! (parse tour_folder // "tour.json") = Some (File text) ->
  Json.loads text = Some tour ->
  getitem tour "name" = Ok name ->
  getitem tour "stops" = Ok stops ->
  iter stops = Ok items ->
  (forall content, fs !! (parse tour_folder // "audio") <> Some (File content)) ->
  let loop := for_each (process_stop edge_tts (parse tour_folder) voice overwrite) items
                       (with_audio_dir (parse tour_folder // "audio") fs) in
  process_tour edge_tts tour_folder voice overwrite fs
  = mkOutcome (loop_result (value loop)) (files loop)
              ([PrintProcessing name; PrintVoice voice; PrintStops (length items)]
                 ++ trace loop ++ loop_epilogue (parse tour_folder // "audio") (value loop)).
Proof.
  intros Hjson Hload Hname Hstops Hiter Hdir loop. unfold process_tour.
  rewrite run_path_exists, Hjson.
  rewrite bool_decide_eq_true_2 by eauto. simpl.
  rewrite (run_pure (read_text _) _ fs text) by (unfold read_text; rewrite Hjson; reflexivity).
  unfold json_load. rewrite Hload. run. rewrite Hname. run.
  rewrite Hstops. run. unfold len. rewrite Hiter. run.
  assert (mkdir_exist_ok (parse tour_folder // "audio") fs
          = mkOutcome (Ok tt) (with_audio_dir (parse tour_folder // "audio") fs) []) as Hmk.
  { unfold mkdir_exist_ok, with_audio_dir.
    destruct (fs !! (parse tour_folder // "audio")) as [[content|]|] eqn:E;
      [destruct (Hdir content); reflexivity | reflexivity | reflexivity]. }
  rewrite (run_bind_ok _ _ _ _ _ _ Hmk). simpl. run. rewrite Hiter. run.
  subst loop. unfold mbind, M_bind.
  destruct (for_each _ items _) as [[[b|]|e] fs' t']; simpl;
    rewrite ?app_nil_r; reflexivity.
Qed.

(** When a file sits where the audio directory should be, the run raises. *)
Lemma process_tour_file_in_the_way edge_tts tour_folder voice overwrite
    (fs : gmap Path node) text tour name stops items content :
  fs !! (parse tour_folder // "tour.json") = Some (File text) ->
  Json.loads text = Some tour ->
  getitem tour "name" = Ok name ->
  getitem tour "stops" = Ok stops ->
  iter stops = Ok items ->
  fs !! (parse tour_folder // "audio") = Some (File content) ->
  value (process_tour edge_tts tour_folder voice overwrite fs) = Raise FileExistsError.
Proof.
  intros Hjson Hload Hname Hstops Hiter Hdir.
  unfold process_tour. rewrite run_path_exists, Hjson.
  rewrite bool_decide_eq_true_2 by eauto. simpl.
  rewrite (run_pure (read_text _) _ fs text)
    by (unfold read_text; rewrite Hjson; reflexivity).
  unfold json_load. rewrite Hload. run. rewrite Hname. run.
  rewrite Hstops. run. unfold len. rewrite Hiter. run.
  unfold mbind, M_bind, mkdir_exist_ok. rewrite Hdir. reflexivity.
Qed.

Lemma process_stop_run edge_tts tour_path voice overwrite stop
    stop_id stop_name script audio_file p (fs : gmap Path node) :
  getitem stop "id" = Ok stop_id ->
  getitem stop "name" = Ok stop_name ->
  getitem stop "script" = Ok script ->
  audio_path_of tour_path stop = Ok (audio_file, p) ->
  process_stop edge_tts tour_path voice overwrite stop fs
  = if bool_decide (is_Some (fs !! p)) && negb overwrite
    then mkOutcome (Ok None) fs [PrintSkipping stop_id stop_name]
    else match edge_tts script voice p fs with
         | Saved audio =>
             mkOutcome (Ok None) (<[p := File audio]> fs)
                       [PrintGenerating stop_id stop_name; Synthesis script p voice;
                        PrintDone (String.length audio)]
         | SaveFailed e partial =>
             mkOutcome (Ok (Some false)) (with_partial p partial fs)
                       [PrintGenerating stop_id stop_name; Synthesis script p voice;
                        PrintError (exn_message e)]
         end.
Proof.
  intros Hid Hname Hscript Hpath.
  rewrite process_stop_resolved, Hid, Hname, Hscript, Hpath.
  apply generate_unless_present_run.
Qed.

(** ** A failed synthesis ends the batch *)

(** C1: when the loop of [process_tour] reaches a stop whose synthesis
    raises, the function prints the error and returns [False]; the files and
    the trace are those left by the stops before it and by the failed call
    itself, whatever stops come after: none of them is synthesised or
    written. *)
Theorem synthesis_failure_aborts edge_tts tour_folder voice overwrite
    (fs : gmap Path node) text tour name stops pre stop post fs1 t1
    stop_id stop_name script audio_file p e partial :
  fs !! (parse tour_folder // "tour.json") = Some (File text) ->
  Json.loads text = Some tour ->
  getitem tour "name" = Ok name ->
  getitem tour "stops" = Ok stops ->
  iter stops = Ok (pre ++ stop :: post) ->
  (forall content, fs !! (parse tour_folder // "audio") <> Some (File content)) ->
  for_each (process_stop edge_tts (parse tour_folder) voice overwrite) pre
           (with_audio_dir (parse tour_folder // "audio") fs)
  = mkOutcome (Ok None) fs1 t1 ->
  getitem stop "id" = Ok stop_id ->
  getitem stop "name" = Ok stop_name ->
  getitem stop "script" = Ok script ->
  audio_path_of (parse tour_folder) stop = Ok (audio_file, p) ->
  overwrite = true \/ fs1 !! p = None ->
  edge_tts script voice p fs1 = SaveFailed e partial ->
  process_tour edge_tts tour_folder voice overwrite fs
  = mkOutcome (Ok false) (with_partial p partial fs1)
      ([PrintProcessing name; PrintVoice voice;
        PrintStops (length (pre ++ stop :: post))]
         ++ t1
         ++ [PrintGenerating stop_id stop_name; Synthesis script p voice;
             PrintError (exn_message e)]).
Proof.
  intros Hjson Hload Hname Hstops Hiter Hdir Hpre Hid Hsname Hscript Hpath Hgo Hfail.
  rewrite (process_tour_run _ _ _ _ _ _ _ _ _ _ Hjson Hload Hname Hstops Hiter Hdir).
  rewrite (for_each_app _ _ _ _ _ _ Hpre).
  assert (process_stop edge_tts (parse tour_folder) voice overwrite stop fs1
          = mkOutcome (Ok (Some false)) (with_partial p partial fs1)
              [PrintGenerating stop_id stop_name; Synthesis script p voice;
               PrintError (exn_message e)]) as Hstop.
  { rewrite (process_stop_run _ _ _ _ _ _ _ _ _ _ _ Hid Hsname Hscript Hpath), Hfail.
    destruct Hgo as [-> | Hnone].
    - rewrite andb_false_r. reflexivity.
    - rewrite Hnone, bool_decide_eq_false_2 by (intros [? ?]; discriminate).
      reflexivity. }
  rewrite (for_each_return _ _ _ _ _ _ _ Hstop). simpl.
  rewrite app_nil_r. reflexivity.
Qed.

Lemma synthesis_failure_aborts_witness :
  process_tour Demo.tts_flaky "tours/old-town" Demo.voice false Demo.fresh
  = mkOutcome (Ok false)
      (with_partial Demo.square_audio (Some EmptyString)
         (<[Demo.gate_audio := File "ID3 Welcome."]>
            (with_audio_dir (parse "tours/old-town" // "audio") Demo.fresh)))
      ([PrintProcessing (JStr "Old Town"); PrintVoice Demo.voice;
        PrintStops (length ([Demo.gate] ++ Demo.square :: [Demo.bridge]))]
         ++ [PrintGenerating (JInt 1) (JStr "Gate");
             Synthesis (JStr "Welcome.") Demo.gate_audio Demo.voice;
             PrintDone 12]
         ++ [PrintGenerating (JInt 2) (JStr "Square");
             Synthesis (JStr "The square.") Demo.square_audio Demo.voice;
             PrintError (exn_message (Exception "connection reset"))]).
Proof.
  apply (synthesis_failure_aborts Demo.tts_flaky "tours/old-town" Demo.voice false
           Demo.fresh (Json.dumps Demo.tour) Demo.tour (JStr "Old Town")
           (JArr [Demo.gate; Demo.square; Demo.bridge])
           [Demo.gate] Demo.square [Demo.bridge] _ _
           (JInt 2) (JStr "Square") (JStr "The square.") "square.mp3").
  - vm_compute. reflexivity.
  - vm_compute. reflexivity.
  - reflexivity.
  - reflexivity.
  - reflexivity.
  - intros content. vm_compute. discriminate.
  - vm_compute. reflexivity.
  - reflexivity.
  - reflexivity.
  - reflexivity.
  - vm_compute. reflexivity.
  - right. vm_compute. reflexivity.
  - reflexivity.
Defined.

(** ** Existing files and the overwrite flag *)

Lemma trace_bind {A B} (m : M A) (k : A -> M B) fs (ev : event) :
  ev ∈ trace ((m ≫= k) fs) ->
  ev ∈ trace (m fs) \/
  exists a, value (m fs) = Ok a /\ ev ∈ trace (k a (files (m fs))).
Proof.
  unfold mbind, M_bind. destruct (m fs) as [[a|e] fs' t]; simpl; [|auto].
  destruct (k a fs') as [r fs'' t'] eqn:Hk; simpl.
  rewrite elem_of_app. intros [H|H]; [auto|].
  right. exists a. rewrite Hk. auto.
Qed.

Lemma process_stop_cases edge_tts tour_path voice overwrite stop (fs : gmap Path node) :
  (exists e, process_stop edge_tts tour_path voice overwrite stop fs
             = mkOutcome (Raise e) fs [])
  \/ (exists stop_id stop_name script audio_file p,
        getitem stop "id" = Ok stop_id /\
        getitem stop "name" = Ok stop_name /\
        getitem stop "script" = Ok script /\
        audio_path_of tour_path stop = Ok (audio_file, p)).
Proof.
  rewrite process_stop_resolved.
  destruct (getitem stop "id") as [stop_id|e]; [|eauto].
  destruct (getitem stop "name") as [stop_name|e]; [|eauto].
  destruct (getitem stop "script") as [script|e]; [|eauto].
  destruct (audio_path_of tour_path stop) as [[audio_file p]|e]; [|eauto].
  right. exists stop_id, stop_name, script, audio_file, p. auto.
Qed.

Lemma process_stop_keeps edge_tts tour_path voice overwrite stop
    (fs : gmap Path node) (q : Path) :
  is_Some (fs !! q) ->
  is_Some (files (process_stop edge_tts tour_path voice overwrite stop fs) !! q).
Proof.
  intros Hq.
  destruct (process_stop_cases edge_tts tour_path voice overwrite stop fs)
    as [[e ->] | (stop_id & stop_name & script & audio_file & p & Hid & Hn & Hs & Hp)];
    [exact Hq|].
  rewrite (process_stop_run _ _ _ _ _ _ _ _ _ _ _ Hid Hn Hs Hp).
  destruct (bool_decide (is_Some (fs !! p)) && negb overwrite); [exact Hq|].
  destruct (edge_tts script voice p fs) as [audio|e [bytes|]]; simpl; try exact Hq;
    rewrite lookup_insert; case_decide; eauto.
Qed.

Lemma process_stop_synthesis edge_tts tour_path voice stop (fs : gmap Path node)
    text q v :
  Synthesis text q v ∈ trace (process_stop edge_tts tour_path voice false stop fs) ->
  fs !! q = None.
Proof.
  destruct (process_stop_cases edge_tts tour_path voice false stop fs)
    as [[e ->] | (stop_id & stop_name & script & audio_file & p & Hid & Hn & Hs & Hp)].
  { simpl. intros H. inversion H. }
  rewrite (process_stop_run _ _ _ _ _ _ _ _ _ _ _ Hid Hn Hs Hp).
  rewrite andb_true_r. case_bool_decide as Hsome.
  { simpl. rewrite list_elem_of_singleton. discriminate. }
  assert (fs !! p = None) as Hnone.
  { destruct (fs !! p) eqn:E; [destruct Hsome; eauto | reflexivity]. }
  destruct (edge_tts script voice p fs) as [audio|e partial]; simpl;
    rewrite !elem_of_cons, elem_of_nil;
    intros [H|[H|[H|[]]]]; try discriminate; injection H as -> -> ->; exact Hnone.
Qed.

Lemma for_each_synthesis_fresh edge_tts tour_path voice (items : list json)
    (fs : gmap Path node) text q v :
  Synthesis text q v
    ∈ trace (for_each (process_stop edge_tts tour_path voice false) items fs) ->
  fs !! q = None.
Proof.
  revert fs. induction items as [|stop rest IH]; intros fs; simpl.
  { intros H. inversion H. }
  intros H. apply trace_bind in H as [H | (r & Hr & H)].
  - eapply process_stop_synthesis, H.
  - destruct r as [b|]; [inversion H|].
    apply IH in H.
    destruct (fs !! q) eqn:E; [|reflexivity].
    destruct (process_stop_keeps edge_tts tour_path voice false stop fs q) as [n0 Hn0];
      [eauto | congruence].
Qed.

Lemma with_audio_dir_keeps audio_dir (fs : gmap Path node) (q : Path) :
  with_audio_dir audio_dir fs !! q = None -> fs !! q = None.
Proof.
  unfold with_audio_dir. destruct (fs !! audio_dir) eqn:E; [auto|].
  rewrite lookup_insert. case_decide; [discriminate | auto].
Qed.

(** Every synthesis call of a run is a call of its loop, started after the
    audio directory was made. *)
Lemma process_tour_synthesis edge_tts tour_folder voice overwrite
    (fs : gmap Path node) text q v :
  Synthesis text q v ∈ trace (process_tour edge_tts tour_folder voice overwrite fs) ->
  exists items,
    Synthesis text q v
      ∈ trace (for_each (process_stop edge_tts (parse tour_folder) voice overwrite)
                        items (with_audio_dir (parse tour_folder // "audio") fs)).
Proof.
  unfold process_tour. rewrite run_path_exists.
  destruct (bool_decide _); simpl.
  2:{ rewrite list_elem_of_singleton. discriminate. }
  intros H. apply trace_bind in H as [H | (text' & _ & H)].
  { unfold read_text in H. repeat case_match; inversion H. }
  assert (files (read_text (parse tour_folder // "tour.json") fs) = fs) as Hread.
  { unfold read_text. repeat case_match; reflexivity. }
  rewrite Hread in H.
  unfold json_load in H.
  destruct (Json.loads text') as [tour|]; [|inversion H]. rewrite run_lift_ok in H.
  destruct (getitem tour "name") as [name|e]; [|inversion H].
  rewrite run_lift_ok, run_print in H. simpl in H.
  apply elem_of_cons in H as [H|H]; [discriminate|].
  rewrite run_print in H. simpl in H.
  apply elem_of_cons in H as [H|H]; [discriminate|].
  destruct (getitem tour "stops") as [stops|e]; [|inversion H].
  rewrite run_lift_ok in H.
  destruct (len stops) as [count|e]; [|inversion H].
  rewrite run_lift_ok, run_print in H. simpl in H.
  apply elem_of_cons in H as [H|H]; [discriminate|].
  apply trace_bind in H as [H | ([] & Hmk & H)].
  { unfold mkdir_exist_ok in H. repeat case_match; inversion H. }
  assert (files (mkdir_exist_ok (parse tour_folder // "audio") fs)
          = with_audio_dir (parse tour_folder // "audio") fs) as Hdir.
  { unfold mkdir_exist_ok, with_audio_dir. repeat case_match; reflexivity. }
  rewrite Hdir in H.
  rewrite run_lift_ok in H.
  destruct (iter stops) as [items|e]; [|inversion H].
  rewrite run_lift_ok in H.
  apply trace_bind in H as [H | (r & _ & H)]; [eauto|].
  destruct r as [b|]; simpl in H.
  - inversion H.
  - apply list_elem_of_singleton in H. discriminate.
Qed.

Lemma for_each_all_synthesised edge_tts tour_path voice (items : list json)
    (fs : gmap Path node) :
  value (for_each (process_stop edge_tts tour_path voice true) items fs) = Ok None ->
  Forall (synthesised tour_path voice
            (trace (for_each (process_stop edge_tts tour_path voice true) items fs)))
         items.
Proof.
  revert fs. induction items as [|stop rest IH]; intros fs; [constructor|].
  simpl. unfold mbind, M_bind.
  destruct (process_stop_cases edge_tts tour_path voice true stop fs)
    as [[e ->] | (stop_id & stop_name & script & audio_file & p & Hid & Hn & Hs & Hp)];
    [discriminate|].
  rewrite (process_stop_run _ _ _ _ _ _ _ _ _ _ _ Hid Hn Hs Hp).
  rewrite andb_false_r.
  destruct (edge_tts script voice p fs) as [audio|e partial]; [|discriminate].
  specialize (IH (<[p := File audio]> fs)).
  destruct (for_each _ rest _) as [r fs' t']. simpl in *.
  intros ->. constructor.
  - exists script, audio_file, p. split; [exact Hs|]. split; [exact Hp|].
    apply list_elem_of_further, list_elem_of_here.
  - eapply Forall_impl; [apply IH; reflexivity|].
    intros stop' (script' & audio_file' & p' & Hs' & Hp' & Hin).
    exists script', audio_file', p'. split; [exact Hs'|]. split; [exact Hp'|].
    do 3 apply list_elem_of_further. exact Hin.
Qed.

Lemma process_stop_never_true edge_tts tour_path voice overwrite stop
    (fs : gmap Path node) :
  value (process_stop edge_tts tour_path voice overwrite stop fs) <> Ok (Some true).
Proof.
  destruct (process_stop_cases edge_tts tour_path voice overwrite stop fs)
    as [[e ->] | (stop_id & stop_name & script & audio_file & p & Hid & Hn & Hs & Hp)];
    [discriminate|].
  rewrite (process_stop_run _ _ _ _ _ _ _ _ _ _ _ Hid Hn Hs Hp).
  destruct (_ && _); [discriminate|].
  destruct (edge_tts script voice p fs); discriminate.
Qed.

Lemma for_each_never_true edge_tts tour_path voice overwrite (items : list json)
    (fs : gmap Path node) :
  value (for_each (process_stop edge_tts tour_path voice overwrite) items fs)
  <> Ok (Some true).
Proof.
  revert fs. induction items as [|stop rest IH]; intros fs; [discriminate|].
  simpl. unfold mbind, M_bind.
  pose proof (process_stop_never_true edge_tts tour_path voice overwrite stop fs) as H.
  destruct (process_stop _ _ _ _ stop fs) as [[[[]|]|e] fs' t']; simpl in *;
    try congruence.
  specialize (IH fs'). destruct (for_each _ rest fs'); exact IH.
Qed.

(** C2: without the overwrite flag a stop whose audio file exists is skipped
    without a synthesis call, and no synthesis call of a whole run goes to a
    file that existed when the run began; with the flag the loop body calls
    the service for the stop whether or not its file exists, and a run that
    succeeds has synthesised every stop. *)
Theorem overwrite_flag edge_tts voice :
  (forall tour_path stop stop_id stop_name script audio_file p (fs : gmap Path node),
     getitem stop "id" = Ok stop_id ->
     getitem stop "name" = Ok stop_name ->
     getitem stop "script" = Ok script ->
     audio_path_of tour_path stop = Ok (audio_file, p) ->
     is_Some (fs !! p) ->
     process_stop edge_tts tour_path voice false stop fs
     = mkOutcome (Ok None) fs [PrintSkipping stop_id stop_name])
  /\ (forall tour_folder (fs : gmap Path node) text q v,
        Synthesis text q v ∈ trace (process_tour edge_tts tour_folder voice false fs) ->
        fs !! q = None)
  /\ (forall tour_path stop stop_id stop_name script audio_file p (fs : gmap Path node),
        getitem stop "id" = Ok stop_id ->
        getitem stop "name" = Ok stop_name ->
        getitem stop "script" = Ok script ->
        audio_path_of tour_path stop = Ok (audio_file, p) ->
        Synthesis script p voice
          ∈ trace (process_stop edge_tts tour_path voice true stop fs))
  /\ (forall tour_folder (fs : gmap Path node) text tour name stops items,
        fs !! (parse tour_folder // "tour.json") = Some (File text) ->
        Json.loads text = Some tour ->
        getitem tour "name" = Ok name ->
        getitem tour "stops" = Ok stops ->
        iter stops = Ok items ->
        value (process_tour edge_tts tour_folder voice true fs) = Ok true ->
        Forall (synthesised (parse tour_folder) voice
                  (trace (process_tour edge_tts tour_folder voice true fs)))
               items).
Proof.
  repeat split.
  - intros tour_path stop stop_id stop_name script audio_file p fs Hid Hn Hs Hp Hsome.
    rewrite (process_stop_run _ _ _ _ _ _ _ _ _ _ _ Hid Hn Hs Hp).
    rewrite bool_decide_eq_true_2 by exact Hsome. reflexivity.
  - intros tour_folder fs text q v H.
    apply process_tour_synthesis in H as [items H].
    apply for_each_synthesis_fresh in H.
    eapply with_audio_dir_keeps, H.
  - intros tour_path stop stop_id stop_name script audio_file p fs Hid Hn Hs Hp.
    rewrite (process_stop_run _ _ _ _ _ _ _ _ _ _ _ Hid Hn Hs Hp).
    rewrite andb_false_r.
    destruct (edge_tts script voice p fs); simpl;
      apply list_elem_of_further, list_elem_of_here.
  - intros tour_folder fs text tour name stops items Hjson Hload Hname Hstops Hiter.
    destruct (fs !! (parse tour_folder // "audio")) as [[content|]|] eqn:Hdir.
    { rewrite (process_tour_file_in_the_way _ _ _ _ _ _ _ _ _ _ _
                 Hjson Hload Hname Hstops Hiter Hdir). discriminate. }
    all: rewrite (process_tour_run _ _ _ _ _ _ _ _ _ _ Hjson Hload Hname Hstops Hiter)
      by (intros c; rewrite Hdir; discriminate).
    all: simpl; intros Hok.
    all: assert (value (for_each (process_stop edge_tts (parse tour_folder) voice true)
                          items (with_audio_dir (parse tour_folder // "audio") fs))
            = Ok None) as Hloop.
    all: try (pose proof (for_each_never_true edge_tts (parse tour_folder) voice true
                            items (with_audio_dir (parse tour_folder // "audio") fs));
              destruct (value (for_each _ items _)) as [[[]|]|]; simpl in Hok;
              congruence).
    all: eapply Forall_impl; [apply for_each_all_synthesised, Hloop|].
    all: intros stop (script & audio_file & p & Hs & Hp & Hin).
    all: exists script, audio_file, p; split; [exact Hs|]; split; [exact Hp|].
    all: do 3 apply list_elem_of_further; apply elem_of_app; left; exact Hin.
Qed.

Lemma overwrite_flag_witness :
  process_stop Demo.tts_up Demo.tour_path Demo.voice false Demo.gate Demo.generated
  = mkOutcome (Ok None) Demo.generated [PrintSkipping (JInt 1) (JStr "Gate")]
  /\ Synthesis (JStr "Welcome.") Demo.gate_audio Demo.voice
       ∈ trace (process_stop Demo.tts_up Demo.tour_path Demo.voice true Demo.gate
                             Demo.generated)
  /\ Forall (synthesised (parse "tours/old-town") Demo.voice
               (trace (process_tour Demo.tts_up "tours/old-town" Demo.voice true
                                    Demo.generated)))
            [Demo.gate; Demo.square; Demo.bridge].
Proof.
  destruct (overwrite_flag Demo.tts_up Demo.voice) as (Hskip & _ & Hforce & Hall).
  split; [|split].
  - apply (Hskip Demo.tour_path Demo.gate (JInt 1) (JStr "Gate") (JStr "Welcome.")
                 "audio/01-stop.mp3" Demo.gate_audio); try reflexivity.
    vm_compute. eexists. reflexivity.
  - apply (Hforce Demo.tour_path Demo.gate (JInt 1) (JStr "Gate") (JStr "Welcome.")
                  "audio/01-stop.mp3" Demo.gate_audio); reflexivity.
  - apply (Hall "tours/old-town" Demo.generated (Json.dumps Demo.tour) Demo.tour
                (JStr "Old Town") (JArr [Demo.gate; Demo.square; Demo.bridge]));
      vm_compute; reflexivity.
Defined.

(** ** One path resolution for writing and for reading *)

(** C10: the path [process_tour] writes a stop's audio to and the path
    [update_tour_durations] reads it from are the same function of the stop:
    the explicit [audioFile] or else the two-digit default, joined to the tour
    folder when it starts with the audio folder and to the audio subdirectory
    otherwise. Every synthesis call of the loop body goes to the path the
    read side resolves. *)
Theorem audio_path_agreement (tour_path : Path) (stop : json) :
  (forall stop_id, getitem stop "id" = Ok stop_id ->
     get_audio_file stop stop_id ≫= output_path_of tour_path
     = result_snd (audio_path_of tour_path stop))
  /\ (forall kv z audio_file,
        stop = JObj kv -> assoc "id" kv = Some (JInt z) ->
        assoc "audioFile" kv = JStr <$> audio_file ->
        get_audio_file stop (JInt z) ≫= output_path_of tour_path
        = Ok (spec_audio_path tour_path z audio_file)
        /\ audio_path_of tour_path stop
           = Ok (spec_audio_file z audio_file, spec_audio_path tour_path z audio_file))
  /\ (forall edge_tts voice overwrite (fs : gmap Path node) text p v,
        Synthesis text p v
          ∈ trace (process_stop edge_tts tour_path voice overwrite stop fs) ->
        exists name, audio_path_of tour_path stop = Ok (name, p)).
Proof.
  split; [|split].
  - intros stop_id. apply write_path_read_path.
  - intros kv z audio_file -> Hid Hfile.
    assert (audio_path_of tour_path (JObj kv)
            = Ok (spec_audio_file z audio_file, spec_audio_path tour_path z audio_file))
      as Hread.
    { unfold audio_path_of, spec_audio_path, spec_audio_file, mbind, result_bind.
      simpl. rewrite Hid, Hfile. simpl.
      destruct audio_file as [name|]; simpl.
      - destruct (String.prefix "audio/" name); reflexivity.
      - rewrite (prefix_append "audio/"). reflexivity. }
    split; [|exact Hread].
    rewrite (write_path_read_path tour_path (JObj kv) (JInt z)), Hread; [reflexivity|].
    simpl. rewrite Hid. reflexivity.
  - intros edge_tts voice overwrite fs text p v.
    destruct (process_stop_cases edge_tts tour_path voice overwrite stop fs)
      as [[e ->] | (stop_id & stop_name & script & audio_file & q & Hid & Hn & Hs & Hp)].
    { simpl. intros H. inversion H. }
    rewrite (process_stop_run _ _ _ _ _ _ _ _ _ _ _ Hid Hn Hs Hp).
    destruct (_ && _); simpl.
    { rewrite list_elem_of_singleton. discriminate. }
    destruct (edge_tts script voice q fs); simpl;
      rewrite !elem_of_cons, elem_of_nil;
      intros [H|[H|[H|[]]]]; try discriminate; injection H as _ -> _; eauto.
Qed.

Lemma audio_path_agreement_witness :
  get_audio_file Demo.square (JInt 2) ≫= output_path_of Demo.tour_path
  = Ok (spec_audio_path Demo.tour_path 2 (Some "square.mp3"))
  /\ audio_path_of Demo.tour_path Demo.square
     = Ok (spec_audio_file 2 (Some "square.mp3"),
           spec_audio_path Demo.tour_path 2 (Some "square.mp3")).
Proof.
  destruct (audio_path_agreement Demo.tour_path Demo.square) as (_ & Hspec & _).
  apply (Hspec _ 2 (Some "square.mp3") eq_refl); reflexivity.
Defined.

(** ** The loop of [update_tour_durations] *)

Lemma audio_path_of_object tour_path stop r :
  audio_path_of tour_path stop = Ok r -> exists kv, stop = JObj kv.
Proof.
  destruct stop; try discriminate. eauto.
Qed.

Lemma update_stop_raise mutagen_length tour_path stop (fs : gmap Path node) e :
  audio_path_of tour_path stop = Raise e ->
  update_stop mutagen_length tour_path stop fs = mkOutcome (Raise e) fs [].
Proof. intros H. unfold update_stop. rewrite H. reflexivity. Qed.

Lemma update_stop_run mutagen_length tour_path stop (fs : gmap Path node) audio_file p :
  audio_path_of tour_path stop = Ok (audio_file, p) ->
  update_stop mutagen_length tour_path stop fs
  = mkOutcome (Ok (corrected_stop mutagen_length fs tour_path stop,
                   duration_differs mutagen_length fs tour_path stop))
              fs (duration_warning mutagen_length fs tour_path stop).
Proof.
  intros Hp. destruct (audio_path_of_object _ _ _ Hp) as [kv ->].
  unfold update_stop, corrected_stop, duration_differs, duration_warning,
    actual_duration, measured.
  rewrite Hp. run.
  destruct (fs !! p) as [[bytes|]|] eqn:Hfs.
  - rewrite bool_decide_eq_true_2 by eauto.
    unfold try_except, read_duration, read_text, mbind, M_bind. rewrite Hfs.
    destruct (mutagen_length bytes) as [seconds|e]; simpl; [|reflexivity].
    destruct (ne_int (assoc "audioDuration" kv) (int_of_float seconds)); reflexivity.
  - rewrite bool_decide_eq_true_2 by eauto.
    unfold try_except, read_duration, read_text, mbind, M_bind. rewrite Hfs.
    reflexivity.
  - rewrite bool_decide_eq_false_2 by (intros [? ?]; discriminate). reflexivity.
Qed.

Lemma update_stop_files mutagen_length tour_path stop (fs : gmap Path node) :
  files (update_stop mutagen_length tour_path stop fs) = fs.
Proof.
  destruct (audio_path_of tour_path stop) as [[audio_file p]|e] eqn:Hp.
  - rewrite (update_stop_run _ _ _ _ _ _ Hp). reflexivity.
  - rewrite (update_stop_raise _ _ _ _ _ Hp). reflexivity.
Qed.

Lemma update_stops_files mutagen_length tour_path (items : list json)
    (fs : gmap Path node) :
  files (update_stops mutagen_length tour_path items fs) = fs.
Proof.
  induction items as [|stop rest IH]; [reflexivity|].
  simpl. unfold mbind, M_bind.
  pose proof (update_stop_files mutagen_length tour_path stop fs) as Hstop.
  destruct (update_stop _ _ stop fs) as [[first|e] fs' t']; simpl in *; subst fs';
    [|reflexivity].
  destruct (update_stops _ _ rest fs) as [[others|e] fs' t'']; simpl in *; subst fs';
    reflexivity.
Qed.


(** The flag is set only when some stop's duration differs. *)
Lemma update_stops_changed mutagen_length tour_path (items : list json)
    (fs : gmap Path node) items' :
  value (update_stops mutagen_length tour_path items fs) = Ok (items', true) ->
  Exists (fun stop => duration_differs mutagen_length fs tour_path stop = true) items.
Proof.
  revert items'. induction items as [|stop rest IH]; intros items'; [discriminate|].
  simpl. unfold mbind, M_bind.
  destruct (audio_path_of tour_path stop) as [[audio_file p]|e] eqn:Hp.
  2:{ rewrite (update_stop_raise _ _ _ _ _ Hp). discriminate. }
  rewrite (update_stop_run _ _ _ _ _ _ Hp).
  pose proof (update_stops_files mutagen_length tour_path rest fs) as Hfiles.
  destruct (update_stops _ _ rest fs) as [[[others updated]|e] fs' t']; simpl in *;
    [|discriminate].
  intros [= <- Hflag].
  destruct (duration_differs mutagen_length fs tour_path stop) eqn:Hd.
  - apply Exists_cons_hd. exact Hd.
  - apply Exists_cons_tl. simpl in Hflag. subst updated. eapply IH. reflexivity.
Qed.

Lemma duration_warning_only mutagen_length tour_path stop (fs : gmap Path node) ev :
  ev ∈ duration_warning mutagen_length fs tour_path stop ->
  exists audio_file msg, ev = PrintWarning audio_file msg.
Proof.
  unfold duration_warning.
  destruct (audio_path_of tour_path stop) as [[audio_file p]|e]; [|inversion 1].
  destruct (measured mutagen_length fs p) as [[d|e]|]; try (inversion 1; fail).
  rewrite list_elem_of_singleton. eauto.
Qed.

Lemma update_stops_warns_only mutagen_length tour_path (items : list json)
    (fs : gmap Path node) ev :
  ev ∈ trace (update_stops mutagen_length tour_path items fs) ->
  exists audio_file msg, ev = PrintWarning audio_file msg.
Proof.
  induction items as [|stop rest IH]; [inversion 1|].
  simpl. intros H. apply trace_bind in H as [H | (first & _ & H)].
  - destruct (audio_path_of tour_path stop) as [[audio_file p]|e] eqn:Hp.
    + rewrite (update_stop_run _ _ _ _ _ _ Hp) in H.
      eapply duration_warning_only, H.
    + rewrite (update_stop_raise _ _ _ _ _ Hp) in H. inversion H.
  - rewrite update_stop_files in H.
    apply trace_bind in H as [H | (others & _ & H)]; [auto | inversion H].
Qed.

(** ** Durations that already match *)

Lemma ne_int_same (d : Z) : ne_int (Some (JInt d)) d = false.
Proof. simpl. rewrite Z.eqb_refl. reflexivity. Qed.

(** C5: when every stop whose audio file can be measured already records
    that duration, [update_tour_durations] leaves every file as it was,
    [tour.json] included, and does not report an update. *)
Theorem matching_durations_leave_json mutagen_length tour_folder
    (fs : gmap Path node) text tour stops items :
  fs !! (parse tour_folder // "tour.json") = Some (File text) ->
  Json.loads text = Some tour ->
  getitem tour "stops" = Ok stops ->
  iter stops = Ok items ->
  (forall stop d,
     stop ∈ items ->
     actual_duration mutagen_length fs (parse tour_folder) stop = Some d ->
     recorded_duration stop = Some (JInt d)) ->
  files (update_tour_durations true mutagen_length tour_folder fs) = fs
  /\ files (update_tour_durations true mutagen_length tour_folder fs)
       !! (parse tour_folder // "tour.json") = Some (File text)
  /\ PrintUpdated ∉ trace (update_tour_durations true mutagen_length tour_folder fs).
Proof.
  intros Hjson Hload Hstops Hiter Hmatch.
  cut (files (update_tour_durations true mutagen_length tour_folder fs) = fs
       /\ PrintUpdated
            ∉ trace (update_tour_durations true mutagen_length tour_folder fs)).
  { intros [Hfiles Htrace]. rewrite Hfiles. auto. }
  assert (forall items',
            value (update_stops mutagen_length (parse tour_folder) items fs)
            <> Ok (items', true)) as Hflag.
  { intros items' Hval. apply update_stops_changed in Hval.
    apply Exists_exists in Hval as (stop & Hin & Hdiff).
    unfold duration_differs in Hdiff.
    destruct (actual_duration mutagen_length fs (parse tour_folder) stop) as [d|] eqn:Hd;
      [|discriminate].
    rewrite (Hmatch stop d), ne_int_same in Hdiff; [discriminate| |exact Hd].
    exact Hin. }
  unfold update_tour_durations. simpl.
  rewrite (run_pure (read_text _) _ fs text)
    by (unfold read_text; rewrite Hjson; reflexivity).
  unfold json_load. rewrite Hload. run. rewrite Hstops. run. rewrite Hiter. run.
  pose proof (update_stops_files mutagen_length (parse tour_folder) items fs) as Hfiles.
  pose proof (update_stops_warns_only mutagen_length (parse tour_folder) items fs)
    as Htrace.
  unfold mbind, M_bind.
  destruct (update_stops _ _ items fs) as [[[items' updated]|e] fs' t']; simpl in *;
    subst fs'.
  - destruct updated; [destruct (Hflag items'); reflexivity|]. simpl.
    split; [reflexivity|].
    rewrite app_nil_r. intros Hin. destruct (Htrace _ Hin) as (? & ? & ?). discriminate.
  - split; [reflexivity|].
    intros Hin. destruct (Htrace _ Hin) as (? & ? & ?). discriminate.
Qed.

Lemma matching_durations_leave_json_witness :
  files (update_tour_durations true Demo.lengths "tours/old-town" Demo.timed)
  = Demo.timed
  /\ files (update_tour_durations true Demo.lengths "tours/old-town" Demo.timed)
       !! (parse "tours/old-town" // "tour.json")
     = Some (File (Json.dumps Demo.tour_timed))
  /\ PrintUpdated
       ∉ trace (update_tour_durations true Demo.lengths "tours/old-town" Demo.timed).
Proof.
  apply (matching_durations_leave_json Demo.lengths "tours/old-town" Demo.timed
           (Json.dumps Demo.tour_timed) Demo.tour_timed
           (JArr [setitem Demo.gate "audioDuration" (JInt 3); Demo.square; Demo.bridge])
           [setitem Demo.gate "audioDuration" (JInt 3); Demo.square; Demo.bridge]).
  - vm_compute. reflexivity.
  - vm_compute. reflexivity.
  - reflexivity.
  - reflexivity.
  - intros stop d Hin.
    apply elem_of_cons in Hin as [->|Hin];
      [|apply elem_of_cons in Hin as [->|Hin];
        [|apply list_elem_of_singleton in Hin as ->]];
      vm_compute; intros [= <-]; reflexivity.
Defined.

(** ** Rewriting the document *)







(** ** An unreadable audio file *)



(** ** Default file names *)

Lemma split_slash_plain (cur s : string) :
  all_chars (fun c => negb (Ascii.eqb c "/")) s = true ->
  split_slash cur s = [cur +:+ s].
Proof.
  revert cur. induction s as [|c s IH]; intros cur; simpl.
  - intros _. rewrite append_nil_r. reflexivity.
  - rewrite andb_true_iff, negb_true_iff. intros [-> Hs].
    rewrite (IH _ Hs), append_assoc. reflexivity.
Qed.

Lemma format_02d_int_digits (z : Z) : all_chars in_number (format_02d_int z) = true.
Proof.
  unfold format_02d_int. destruct (_ && _); [|apply pretty_Z_digits].
  change ("0" +:+ pretty z) with (String "0" (pretty z)). simpl.
  apply pretty_Z_digits.
Qed.

Lemma in_number_not_slash (c : ascii) :
  in_number c = true -> negb (Ascii.eqb c "/") = true.
Proof.
  destruct (Ascii.eqb c "/") eqn:E; [|reflexivity].
  apply Ascii.eqb_eq in E. subst c. discriminate.
Qed.

(** The default audio file of a stop lies in the audio directory of the tour
    folder. *)
Lemma default_audio_shape (tour_path : Path) (z : Z) :
  default_audio tour_path z
  = mkPath (root (tour_path // "audio"))
           (parts (tour_path // "audio") ++ [format_02d_int z +:+ "-stop.mp3"]).
Proof.
  assert (parse ("audio/" +:+ format_02d_int z +:+ "-stop.mp3")
          = mkPath EmptyString ["audio"; format_02d_int z +:+ "-stop.mp3"]) as Hparse.
  { unfold parse.
    change (split_slash EmptyString ("audio/" +:+ format_02d_int z +:+ "-stop.mp3"))
      with ("audio" :: split_slash EmptyString (format_02d_int z +:+ "-stop.mp3")).
    rewrite split_slash_plain.
    2:{ rewrite all_chars_append, andb_true_iff. split; [|reflexivity].
        eapply all_chars_impl; [apply in_number_not_slash | apply format_02d_int_digits]. }
    change (root_of ("audio/" +:+ format_02d_int z +:+ "-stop.mp3")) with EmptyString.
    f_equal. simpl. unfold keep_part.
    assert (forall t : string, (String.length t < 9)%nat ->
              String.eqb (EmptyString +:+ format_02d_int z +:+ "-stop.mp3") t = false)
      as Hlong.
    { intros t Ht. apply String.eqb_neq. intros Heq.
      apply (f_equal String.length) in Heq. rewrite !append_length in Heq.
      simpl in Heq. lia. }
    rewrite !Hlong by (simpl; lia). reflexivity. }
  unfold default_audio, join. rewrite Hparse.
  change (parse "audio") with (mkPath EmptyString ["audio"]). simpl.
  rewrite <- app_assoc. reflexivity.
Qed.

Lemma default_audio_inj (tour_path : Path) (a b : Z) :
  default_audio tour_path a = default_audio tour_path b -> a = b.
Proof.
  rewrite !default_audio_shape. intros [= H].
  apply app_inj_tail in H as [_ H].
  apply format_02d_int_inj. eapply append_cancel_r, H.
Qed.

Lemma default_audio_not_dir (tour_path : Path) (z : Z) :
  default_audio tour_path z <> tour_path // "audio".
Proof.
  rewrite default_audio_shape. intros H.
  apply (f_equal (fun p => length (parts p))) in H. simpl in H.
  rewrite length_app in H. simpl in H. lia.
Qed.

Lemma default_stop_resolves (tour_path : Path) (stop : json) (z : Z) :
  default_stop stop z ->
  exists stop_name script audio_file,
    getitem stop "id" = Ok (JInt z) /\
    getitem stop "name" = Ok stop_name /\
    getitem stop "script" = Ok script /\
    audio_path_of tour_path stop = Ok (audio_file, default_audio tour_path z).
Proof.
  intros (kv & stop_name & script & -> & Hid & Hname & Hscript & Hfile).
  exists stop_name, script, ("audio/" +:+ format_02d_int z +:+ "-stop.mp3").
  unfold audio_path_of, default_audio, mbind, result_bind. simpl.
  rewrite Hid, Hname, Hscript, Hfile. simpl.
  rewrite (prefix_append "audio/"). auto.
Qed.

(** A loop over stops with distinct identifiers and default names whose files
    are not there yet: when it completes, every stop has its file, and no
    other path has changed. *)
Lemma for_each_default_stops edge_tts tour_path voice overwrite
    (items : list json) (ids : list Z) (fs : gmap Path node) :
  Forall2 default_stop items ids ->
  NoDup ids ->
  (forall z, z ∈ ids -> fs !! default_audio tour_path z = None) ->
  value (for_each (process_stop edge_tts tour_path voice overwrite) items fs) = Ok None ->
  (forall z, z ∈ ids ->
     exists audio,
       files (for_each (process_stop edge_tts tour_path voice overwrite) items fs)
         !! default_audio tour_path z = Some (File audio))
  /\ (forall p, (forall z, z ∈ ids -> p <> default_audio tour_path z) ->
        files (for_each (process_stop edge_tts tour_path voice overwrite) items fs) !! p
        = fs !! p).
Proof.
  intros Hstops. revert fs.
  induction Hstops as [|stop z items ids Hstop _ IH]; intros fs Hnodup Hfresh.
  { intros _. split; [intros z Hz; inversion Hz | reflexivity]. }
  apply NoDup_cons in Hnodup as [Hz Hnodup].
  destruct (default_stop_resolves tour_path stop z Hstop)
    as (stop_name & script & audio_file & Hid & Hname & Hscript & Hpath).
  simpl. unfold mbind, M_bind.
  rewrite (process_stop_run _ _ _ _ _ _ _ _ _ _ _ Hid Hname Hscript Hpath).
  rewrite (Hfresh z) by apply list_elem_of_here.
  rewrite bool_decide_eq_false_2 by (intros [? ?]; discriminate). simpl.
  destruct (edge_tts script voice (default_audio tour_path z) fs) as [audio|e partial];
    [|discriminate].
  specialize (IH (<[default_audio tour_path z := File audio]> fs) Hnodup).
  destruct (for_each _ items _) as [r fs' t'] eqn:Hloop. simpl in *.
  intros ->.
  destruct IH as [IHfiles IHframe]; [|reflexivity|].
  { intros z' Hz'. rewrite lookup_insert_ne.
    - apply Hfresh, list_elem_of_further, Hz'.
    - intros Heq. apply default_audio_inj in Heq. subst z'. contradiction. }
  split.
  - intros z' Hz'. apply elem_of_cons in Hz' as [->|Hz']; [|auto].
    exists audio. rewrite IHframe.
    + apply lookup_insert_eq.
    + intros z' Hz' Heq. apply default_audio_inj in Heq. subst z'. contradiction.
  - intros p Hp. rewrite IHframe.
    + apply lookup_insert_ne. intros Heq. apply (Hp z); [apply list_elem_of_here | auto].
    + intros z' Hz'. apply Hp, list_elem_of_further, Hz'.
Qed.

(** ** One audio file per stop *)

(** C3, as amended: for a document whose stops carry pairwise distinct
    integer identifiers and no explicit [audioFile], in a folder where none
    of their default files is there yet, a run that succeeds creates exactly
    one new file per stop, the file of the stop numbered [z] being
    [<z in two digits>-stop.mp3] in the audio directory of the tour folder. *)
Theorem default_names_one_file_per_stop edge_tts tour_folder voice overwrite
    (fs : gmap Path node) text tour name stops items ids :
  fs !! (parse tour_folder // "tour.json") = Some (File text) ->
  Json.loads text = Some tour ->
  getitem tour "name" = Ok name ->
  getitem tour "stops" = Ok stops ->
  iter stops = Ok items ->
  Forall2 default_stop items ids ->
  NoDup ids ->
  (forall z, z ∈ ids -> fs !! default_audio (parse tour_folder) z = None) ->
  value (process_tour edge_tts tour_folder voice overwrite fs) = Ok true ->
  new_files fs (files (process_tour edge_tts tour_folder voice overwrite fs))
  = list_to_set (default_audio (parse tour_folder) <$> ids)
  /\ size (new_files fs (files (process_tour edge_tts tour_folder voice overwrite fs)))
     = length items
  /\ (forall z, z ∈ ids ->
        (exists audio,
           files (process_tour edge_tts tour_folder voice overwrite fs)
             !! default_audio (parse tour_folder) z = Some (File audio))
        /\ default_audio (parse tour_folder) z
           = mkPath (root (parse tour_folder // "audio"))
                    (parts (parse tour_folder // "audio")
                       ++ [format_02d_int z +:+ "-stop.mp3"])).
Proof.
  intros Hjson Hload Hname Hstops Hiter Hdefault Hnodup Hfresh Hok.
  assert (forall content, fs !! (parse tour_folder // "audio") <> Some (File content))
    as Hdir.
  { intros content Hfile.
    rewrite (process_tour_file_in_the_way _ _ _ _ _ _ _ _ _ _ _
               Hjson Hload Hname Hstops Hiter Hfile) in Hok. discriminate. }
  rewrite (process_tour_run _ _ _ _ _ _ _ _ _ _ Hjson Hload Hname Hstops Hiter Hdir)
    in *. simpl in *.
  set (tour_path := parse tour_folder) in *.
  set (fs1 := with_audio_dir (tour_path // "audio") fs) in *.
  assert (value (for_each (process_stop edge_tts tour_path voice overwrite) items fs1)
          = Ok None) as Hloop.
  { pose proof (for_each_never_true edge_tts tour_path voice overwrite items fs1).
    destruct (value (for_each _ items fs1)) as [[[]|]|]; simpl in Hok; congruence. }
  assert (forall z, z ∈ ids -> fs1 !! default_audio tour_path z = None) as Hfresh1.
  { intros z Hz. unfold fs1, with_audio_dir.
    destruct (fs !! (tour_path // "audio")); [auto|].
    rewrite lookup_insert_ne; [auto|].
    intros Heq. symmetry in Heq. eapply default_audio_not_dir, Heq. }
  destruct (for_each_default_stops edge_tts tour_path voice overwrite items ids fs1
              Hdefault Hnodup Hfresh1 Hloop) as [Hfiles Hframe].
  set (after := files (for_each (process_stop edge_tts tour_path voice overwrite)
                               items fs1)) in *.
  assert (new_files fs after = list_to_set (default_audio tour_path <$> ids)) as Hnew.
  { apply set_eq. intros p. unfold new_files.
    rewrite elem_of_dom, elem_of_list_to_set, list_elem_of_fmap. split.
    - intros [n Hn]. apply map_lookup_filter_Some in Hn as [Hafter [Hnone Hfile]].
      simpl in *.
      destruct (decide (p ∈ default_audio tour_path <$> ids)) as [Hin|Hout].
      + apply list_elem_of_fmap in Hin. exact Hin.
      + exfalso. rewrite Hframe in Hafter.
        * unfold fs1, with_audio_dir in Hafter.
          destruct (fs !! (tour_path // "audio")) eqn:Hd; [congruence|].
          rewrite lookup_insert in Hafter. case_decide; congruence.
        * intros z Hz ->. apply Hout, list_elem_of_fmap. eauto.
    - intros (z & -> & Hz). destruct (Hfiles z Hz) as [audio Haudio].
      exists (File audio). apply map_lookup_filter_Some. simpl. auto. }
  split; [exact Hnew|]. split.
  - rewrite Hnew, size_list_to_set.
    + rewrite length_fmap. symmetry. eapply Forall2_length, Hdefault.
    + apply NoDup_fmap_2; [|exact Hnodup].
      intros a b. apply default_audio_inj.
  - intros z Hz. split; [apply Hfiles, Hz | apply default_audio_shape].
Qed.

Lemma default_names_one_file_per_stop_witness :
  new_files Demo.plain
    (files (process_tour Demo.tts_up "tours/old-town" Demo.voice false Demo.plain))
  = list_to_set (default_audio (parse "tours/old-town") <$> [1; 12])
  /\ size (new_files Demo.plain
             (files (process_tour Demo.tts_up "tours/old-town" Demo.voice false
                                  Demo.plain)))
     = length [Demo.gate; Demo.arch].
Proof.
  destruct (default_names_one_file_per_stop Demo.tts_up "tours/old-town" Demo.voice
              false Demo.plain (Json.dumps Demo.plain_tour) Demo.plain_tour
              (JStr "Old Town") (JArr [Demo.gate; Demo.arch]) [Demo.gate; Demo.arch]
              [1; 12])
    as (Hnew & Hsize & _).
  - vm_compute. reflexivity.
  - vm_compute. reflexivity.
  - reflexivity.
  - reflexivity.
  - reflexivity.
  - repeat constructor; eexists _, _, _; repeat split; reflexivity.
  - apply NoDup_cons. split; [|apply NoDup_singleton].
    rewrite list_elem_of_singleton. discriminate.
  - intros z Hz.
    apply elem_of_cons in Hz as [->|Hz]; [|apply list_elem_of_singleton in Hz as ->];
      vm_compute; reflexivity.
  - vm_compute. reflexivity.
  - split; assumption.
Defined.

(** C3, as stated, fails: two stops that share an identifier share their
    default file name. The run succeeds, the second stop finds the file of
    the first and is skipped, and one audio file is written for two stops. *)
Lemma duplicate_ids_share_a_file :
  Demo.twins !! (parse "tours/old-town" // "tour.json")
  = Some (File (Json.dumps Demo.twin_tour))
  /\ Json.loads (Json.dumps Demo.twin_tour) = Some Demo.twin_tour
  /\ getitem Demo.twin_tour "stops" = Ok (JArr [Demo.gate; Demo.gate_again])
  /\ Forall2 default_stop [Demo.gate; Demo.gate_again] [1; 1]
  /\ dom Demo.twins = {[ parse "tours/old-town" // "tour.json" ]}
  /\ value (process_tour Demo.tts_up "tours/old-town" Demo.voice false Demo.twins)
     = Ok true
  /\ size (new_files Demo.twins
             (files (process_tour Demo.tts_up "tours/old-town" Demo.voice false
                                  Demo.twins)))
     <> length [Demo.gate; Demo.gate_again].
Proof.
  split; [vm_compute; reflexivity|].
  split; [vm_compute; reflexivity|].
  split; [reflexivity|].
  split.
  { repeat constructor; eexists _, _, _; repeat split; reflexivity. }
  split; [vm_compute; reflexivity|].
  split; [vm_compute; reflexivity|].
  vm_compute. discriminate.
Qed.

(** ** The layout of the rewritten document *)










